(** * SRGAN data pipeline and losses: a shallow embedding

    The development follows [SRGAN/dataset.py] (the Celeb-A cache loader
    [CelebADataSet.load_data] and the minibatch iterator [DataIterator]) and
    [SRGAN/srgan_model.py] (the placeholder generator and the losses built by
    [SRGAN.build_began]).

    Conventions.
    - Python integers are [Z]; [//] and [%] are [Z.div] and [Z.modulo]
      (both round towards minus infinity, as Python's do).
    - An array is the list of its rows; a slice [a[i:j]] follows Python's
      rule for negative and out-of-range bounds.
    - A raised exception is the [Raise] case of [result].
    - [print] appends a line to a log that is returned with the value.
    - [np.float16] values are the rationals they denote; every operation
      rounds its exact result to the nearest representable value, ties to
      even.
    - A Python [float] is a double: the quotient [a / b] of two integers
      is their exact quotient rounded once.  Where the code only takes the
      integer part or the ceiling of such a quotient, the model takes it
      exactly and the statements keep to operands for which the two are
      equal. *)

From Stdlib Require Import String Bool ZArith QArith Lia List.
From Stdlib.Strings Require Import Byte.
From Stdlib Require Import Qabs Qround Permutation Sorted Reals Lra.
Import ListNotations.

Local Open Scope Z_scope.

(** ** Exceptions *)

Inductive exn : Set :=
| ZeroDivisionError
| KeyError
| IndexError
| AttributeError
| AssertionError
| ValueError.

Inductive result (T : Type) : Type :=
| Ok (v : T)
| Raise (e : exn).

Arguments Ok {T} v.
Arguments Raise {T} e.

Definition bind {T U : Type} (r : result T) (k : T -> result U) : result U :=
  match r with
  | Ok v => k v
  | Raise e => Raise e
  end.

Notation "x <- r ;; k" := (bind r (fun x => k))
  (at level 61, r at next level, right associativity).
Notation "' p <- r ;; k" := (bind r (fun p => k))
  (at level 61, p pattern, r at next level, right associativity).

(** ** Python sequences *)

Module Py.
Section Seq.
Context {A : Type}.

Definition len (l : list A) : Z := Z.of_nat (length l).

(** A slice bound [i] on a sequence of length [n], as [slice.indices]
    computes it for a step of one: a negative bound counts from the end,
    and the result is clamped to [0..n]. *)
Definition bound (n i : Z) : Z :=
  if i <? 0 then Z.max (i + n) 0 else Z.min i n.

(** [l[start:stop]] *)
Definition slice (l : list A) (start stop : Z) : list A :=
  let a := bound (len l) start in
  let b := bound (len l) stop in
  firstn (Z.to_nat (b - a)) (skipn (Z.to_nat a) l).

(** [l[start:]] *)
Definition slice_from (l : list A) (start : Z) : list A :=
  skipn (Z.to_nat (bound (len l) start)) l.

(** [l[idx]] for an integer index array [idx] (numpy's fancy indexing
    along the first axis); an index outside the array raises. *)
Fixpoint take (l : list A) (idx : list nat) : result (list A) :=
  match idx with
  | [] => Ok []
  | i :: idx' =>
      match nth_error l i with
      | None => Raise IndexError
      | Some a => r <- take l idx' ;; Ok (a :: r)
      end
  end.
End Seq.

(** [np.arange(n)] *)
Definition arange (n : Z) : list nat := seq 0 (Z.to_nat n).

(** [a // b] and [a % b] on integers. *)
Definition floordiv (a b : Z) : result Z :=
  if b =? 0 then Raise ZeroDivisionError else Ok (a / b).

Definition modulo (a b : Z) : result Z :=
  if b =? 0 then Raise ZeroDivisionError else Ok (a mod b).

(** [int(np.ceil(a / b))] with true division, as the exact ceiling.  The
    code divides in double precision: for a row count [a] below 2^53 and a
    size [b] from 1 to 2^1074 the two ceilings are equal; a larger size can
    make the quotient of a store with rows round to zero.  Statements that
    let the size exceed the row count bound it by 2^1074. *)
Definition ceildiv (a b : Z) : result Z :=
  if b =? 0 then Raise ZeroDivisionError else Ok (- ((- a) / b)).
End Py.

(** ** Floating-point numbers

    A finite floating-point number is modelled by the rational it denotes.
    [round_ne prec emin q] is [q] rounded to the nearest number with a
    [prec]-bit significand and least exponent [emin] (the exponent of the
    last place of the subnormals), ties to even.  Overflow is not modelled:
    a value computed below in half or single precision has magnitude at
    most 256, one computed in double precision is at most a row count. *)

Module Float.
Local Open Scope Q_scope.

(** [floor (log2 (n/d))] for positive [n], [d]. *)
Definition ilog2 (n d : Z) : Z :=
  let k := (Z.log2 n - Z.log2 d)%Z in
  let ge := if (0 <=? k)%Z then (d * 2 ^ k <=? n)%Z else (d <=? n * 2 ^ (- k))%Z in
  if ge then k else (k - 1)%Z.

(** The integer nearest to [n/d] ([0 < d]), ties to even. *)
Definition rint_frac (n d : Z) : Z :=
  let fl := (n / d)%Z in
  let r := (n mod d)%Z in
  match (2 * r ?= d)%Z with
  | Lt => fl
  | Gt => (fl + 1)%Z
  | Eq => if Z.even fl then fl else (fl + 1)%Z
  end.

(** [m * 2^e] as a rational. *)
Definition scale2 (m e : Z) : Q :=
  if (0 <=? e)%Z then inject_Z (m * 2 ^ e) else Qmake m (Z.to_pos (2 ^ (- e))).

Definition round_ne (prec emin : Z) (q : Q) : Q :=
  let n := Z.abs (Qnum q) in
  let d := Zpos (Qden q) in
  if (n =? 0)%Z then 0
  else
    let e := Z.max (ilog2 n d - prec + 1) emin in
    let m := if (0 <=? e)%Z then rint_frac n (d * 2 ^ e)
             else rint_frac (n * 2 ^ (- e)) d in
    Qred (scale2 (Z.sgn (Qnum q) * m) e).

(** IEEE binary16 and binary32. *)
Definition to_half : Q -> Q := round_ne 11 (-24).
Definition to_single : Q -> Q := round_ne 24 (-149).
(** IEEE binary64, the [float] of Python. *)
Definition to_double : Q -> Q := round_ne 53 (-1074).

(** numpy's half-precision loops widen both operands to single precision,
    operate there, and narrow the result back to half precision. *)
Definition half_div (a b : Q) : Q := to_half (to_single (a / b)).
Definition half_mul (a b : Q) : Q := to_half (to_single (a * b)).

(** [np.round] / [np.rint]: nearest integer, ties to even. *)
Definition rint (q : Q) : Z := rint_frac (Qnum q) (Zpos (Qden q)).
End Float.

(** ** The image cache and its loader ([CelebADataSet]) *)

Module CelebA.

(** One row per image: the flattened [uint8] pixel buffer. *)
Definition images := list (list byte).

(** The HDF5 container: named datasets. *)
Definition h5file := list (string * images).

Fixpoint h5_get (hf : h5file) (key : string) : result images :=
  match hf with
  | [] => Raise KeyError
  | (k, d) :: hf' => if String.eqb k key then Ok d else h5_get hf' key
  end.

(** [h5py.File(path, 'w')] starts from an empty container;
    [create_dataset] adds a named array. *)
Definition create_dataset (hf : h5file) (key : string) (data : images) : h5file :=
  (key, data) :: hf.

(** The write at the end of [celeb_a(mode='w')]. *)
Definition write_cache (data : images) : h5file :=
  create_dataset [] "images" data.

(** Lines printed by [load_data]; the shape is recorded by its row count. *)
Inductive line : Set :=
| LoopingFromBackToStart
| NotEnoughDataClippingToEnd
| ImageSize (rows : nat).

Definition uint8_to_half (b : byte) : Q := inject_Z (Z.of_N (Byte.to_N b)).

(** [np.array(faces, dtype=np.float16) / 255.] on one element. *)
Definition normalize (b : byte) : Q :=
  Float.half_div (uint8_to_half b) (255 # 1).

(** [int(np.ceil(full_size / size))] step by step: the quotient of the two
    integers rounded once to double precision, then its ceiling (the sign
    of [size] is carried by the numerator).  A quotient beyond the range
    of a double, which takes 2^1024 rows, is not modelled. *)
Definition n_chunks_double (full_size size : Z) : result Z :=
  if size =? 0 then Raise ZeroDivisionError
  else Ok (Qceiling (Float.to_double
                       (Qmake (full_size * Z.sgn size) (Z.to_pos (Z.abs size))))).

(** [load_data(self, size, offset=0)]: the printed lines and the outcome.
    [hf] is the content of the file at [DataSets['celeb-a-h5']].  The chunk
    count is taken as the exact ceiling [Py.ceildiv], which
    [n_chunks_double] equals for fewer than 2^53 rows and a size from 1 to
    2^1074. *)
Definition load_data (hf : h5file) (size : option Z) (offset : Z)
  : list line * result (list (list Q)) :=
  match h5_get hf "images" with
  | Raise e => ([], Raise e)
  | Ok faces =>
      let full_size := Py.len faces in
      let size := match size with None => full_size | Some s => s end in
      match Py.ceildiv full_size size with
      | Raise e => ([], Raise e)
      | Ok n_chunks =>
          let looping := n_chunks <=? offset in
          let log1 := if looping then [LoopingFromBackToStart] else [] in
          match (if looping then Py.modulo offset n_chunks else Ok offset) with
          | Raise e => (log1, Raise e)
          | Ok offset =>
              let clipping := offset =? n_chunks - 1 in
              let log2 := if clipping then [NotEnoughDataClippingToEnd] else [] in
              let faces :=
                if clipping then Py.slice_from faces (offset * size)
                else Py.slice faces (offset * size) ((offset + 1) * size) in
              (log1 ++ log2 ++ [ImageSize (length faces)],
               Ok (map (map normalize) faces))
          end
      end
  end.

(** The value returned by [load_data]. *)
Definition loaded hf size offset : result (list (list Q)) :=
  snd (load_data hf size offset).

(** [x * 255] rounded to the nearest integer, with the product taken
    exactly and with the product taken in half precision. *)
Definition denormalize (v : Q) : Z := Float.rint (v * (255 # 1))%Q.
Definition denormalize_half (v : Q) : Z := Float.rint (Float.half_mul v (255 # 1)).

Definition byte_value (b : byte) : Z := Z.of_N (Byte.to_N b).
End CelebA.

(** ** The minibatch iterator ([DataIterator]) *)

Module Iterator.
Section WithRandom.
Context {A B : Type}.

(** The state of numpy's global generator, and [np.random.shuffle] as a
    function of it: the new state and the shuffled array. *)
Variable rng : Type.
Variable shuffle : rng -> list nat -> rng * list nat.

(** The generator together with the number of shuffles drawn from it. *)
Record world : Type := World { gen : rng; shuffles : nat }.

Definition np_random_shuffle (w : world) (a : list nat) : world * list nat :=
  let (g, a') := shuffle (gen w) a in
  (World g (S (shuffles w)), a').

(** The attributes of a [DataIterator].  The attribute [y] exists only
    when it was assigned, that is when [label_off] is false. *)
Record DataIterator : Type := Build {
  x : list A;
  label_off : bool;
  y : option (list B);
  batch_size : Z;
  num_examples : Z;
  num_batches : Z;
  pointer : Z
}.

Definition get_y (self : DataIterator) : result (list B) :=
  match y self with
  | Some ys => Ok ys
  | None => Raise AttributeError
  end.

(** [DataIterator.__init__(self, x, y, batch_size, label_off=False)] *)
Definition __init__ (x0 : list A) (y0 : list B) (batch_size0 : Z) (label_off0 : bool)
  : result DataIterator :=
  let num_examples0 := Py.len x0 in
  num_batches0 <- Py.floordiv num_examples0 batch_size0 ;;
  if batch_size0 <=? num_examples0 then
    Ok {| x := x0;
          label_off := label_off0;
          y := if negb label_off0 then Some y0 else None;
          batch_size := batch_size0;
          num_examples := num_examples0;
          num_batches := num_batches0;
          pointer := 0 |}
  else Raise AssertionError.

(** What [next_batch] returns: a pair when labels are on, the feature
    slice alone otherwise. *)
Inductive batch : Type :=
| Pair (xs : list A) (ys : list B)
| Single (xs : list A).

Definition set_pointer (self : DataIterator) (p : Z) : DataIterator :=
  {| x := x self; label_off := label_off self; y := y self;
     batch_size := batch_size self; num_examples := num_examples self;
     num_batches := num_batches self; pointer := p |}.

Definition set_x (self : DataIterator) (x' : list A) : DataIterator :=
  {| x := x'; label_off := label_off self; y := y self;
     batch_size := batch_size self; num_examples := num_examples self;
     num_batches := num_batches self; pointer := pointer self |}.

Definition set_y (self : DataIterator) (y' : list B) : DataIterator :=
  {| x := x self; label_off := label_off self; y := Some y';
     batch_size := batch_size self; num_examples := num_examples self;
     num_batches := num_batches self; pointer := pointer self |}.

(** The body of [if self.pointer > self.num_examples:]: the updated
    object and generator.  When indexing [y] raises, [x] has been replaced
    already; the object an exception leaves behind is not modelled. *)
Definition reshuffle (w : world) (self : DataIterator) : result (DataIterator * world) :=
  let (w, perm) := np_random_shuffle w (Py.arange (num_examples self)) in
  x' <- Py.take (x self) perm ;;
  let self := set_x self x' in
  self <- (if negb (label_off self) then
             ys <- get_y self ;;
             y' <- Py.take ys perm ;;
             Ok (set_y self y')
           else Ok self) ;;
  Ok (set_pointer self (batch_size self), w).

(** [DataIterator.next_batch(self)]: the returned batch, the object after
    the call and the generator after the call. *)
Definition next_batch (w : world) (self : DataIterator)
  : result (batch * DataIterator * world) :=
  let start := pointer self in
  let self := set_pointer self (pointer self + batch_size self) in
  '(start, self, w) <-
     (if num_examples self <? pointer self then
        '(self, w) <- reshuffle w self ;;
        Ok (0, self, w)
      else Ok (start, self, w)) ;;
  let end_ := pointer self in
  if negb (label_off self) then
    ys <- get_y self ;;
    Ok (Pair (Py.slice (x self) start end_) (Py.slice ys start end_), self, w)
  else
    Ok (Single (Py.slice (x self) start end_), self, w).

(** [n] successive calls of [next_batch]. *)
Fixpoint calls (n : nat) (w : world) (self : DataIterator)
  : result (list batch * DataIterator * world) :=
  match n with
  | O => Ok ([], self, w)
  | S n' =>
      '(b, self, w) <- next_batch w self ;;
      '(bs, self, w) <- calls n' w self ;;
      Ok (b :: bs, self, w)
  end.

(** [DataIterator.iterate(self)], consumed to its end: the batches it
    yields, one [next_batch] call for each [step in range(num_batches)]. *)
Definition iterate (w : world) (self : DataIterator)
  : result (list batch * DataIterator * world) :=
  calls (Z.to_nat (num_batches self)) w self.

Definition features (b : batch) : list A :=
  match b with
  | Pair xs _ => xs
  | Single xs => xs
  end.

Definition labels (b : batch) : option (list B) :=
  match b with
  | Pair _ ys => Some ys
  | Single _ => None
  end.
End WithRandom.

Arguments World {rng} gen shuffles.
Arguments gen {rng} w.
Arguments shuffles {rng} w.
Arguments np_random_shuffle {rng} shuffle w a.
Arguments reshuffle {A B rng} shuffle w self.
Arguments next_batch {A B rng} shuffle w self.
Arguments calls {A B rng} shuffle n w self.
Arguments iterate {A B rng} shuffle w self.
End Iterator.

(** ** The model ([SRGAN])

    Tensors are lists of reals: the losses are read as formulas over the
    discriminator's outputs, without rounding. *)

Module SRGAN.
Local Open Scope R_scope.

Definition tensor := list R.

Definition reduce_sum_all (t : tensor) : R := fold_right Rplus 0 t.

(** [tf.nn.l2_loss(t)]: [sum(t ** 2) / 2]. *)
Definition l2_loss (t : tensor) : R := reduce_sum_all (map (fun v => v * v) t) / 2.

(** Element-wise [pred - data] on tensors of one shape. *)
Fixpoint sub (pred data : tensor) : tensor :=
  match pred, data with
  | p :: pred', d :: data' => (p - d) :: sub pred' data'
  | _, _ => []
  end.

Definition ones_like (t : tensor) : tensor := map (fun _ => 1) t.
Definition zeros_like (t : tensor) : tensor := map (fun _ => 0) t.

(** [tf.reduce_sum] of a scalar. *)
Definition reduce_sum (v : R) : R := v.

(** [SRGAN.generator(self, z, reuse=None)] *)
Definition generator {T : Type} (z : T) (reuse : option bool) : T := z.

Section Build.
(** [self.batch_size], and the discriminator network as a function of
    its input (the layers are not modelled). *)
Variable batch_size : R.
Variable input : Type.
Variable discriminator : input -> option bool -> tensor.

(** The local function [mse_loss] of [build_began]. *)
Definition mse_loss (pred data : tensor) : R :=
  sqrt (2 * l2_loss (sub pred data)) / batch_size.

Record losses : Type := Losses {
  d_real_loss : R;
  d_fake_loss : R;
  d_loss : R;
  g_loss : R
}.

(** The losses of [SRGAN.build_began] for the placeholders [x] and [z]. *)
Definition build_began (x z : input) : losses :=
  let g := generator z None in
  let d_real := discriminator x None in
  let d_fake := discriminator g (Some true) in
  let d_real_loss := reduce_sum (mse_loss d_real (ones_like d_real)) in
  let d_fake_loss := reduce_sum (mse_loss d_fake (zeros_like d_fake)) in
  {| d_real_loss := d_real_loss;
     d_fake_loss := d_fake_loss;
     d_loss := (d_real_loss + d_fake_loss) / 2;
     g_loss := reduce_sum (mse_loss d_fake (ones_like d_fake)) |}.
End Build.
End SRGAN.

(** ** Building the cache ([CelebADataSet.__init__], [celeb_a])

    The file imports [division] and [print_function] from [__future__]: it
    runs under Python 2 and Python 3, which round a half differently.  An
    image is the list of its pixel rows; [imread], [imresize], [np.zeros]
    and the assignment of a flattened image to a cache row belong to scipy
    and numpy and are parameters.  The container file is taken to exist. *)

Module CelebABuild.

Inductive python : Set := Python2 | Python3.

(** [int(a / b)]: true division, then truncation towards zero.  Image
    sizes are far below 2^53, where the double-precision quotient has the
    same integer part as the exact one. *)
Definition int_truediv (a b : Z) : result Z :=
  if b =? 0 then Raise ZeroDivisionError else Ok (Z.quot a b).

(** [int(round(d / 2))]: Python 2 rounds a half away from zero, Python 3
    to the even neighbour.  The code halves in double precision, which is
    exact for a difference below 2^53 in absolute value; a difference too
    large for a double raises [OverflowError] there.  Statements about the
    margin keep the difference below 2^53. *)
Definition int_round_half (py : python) (d : Z) : Z :=
  match py with
  | Python2 => if 0 <=? d then (d + 1) / 2 else - ((- d + 1) / 2)
  | Python3 => Float.rint_frac d 2
  end.

(** [np.sort] on file names: ascending in the order of their characters. *)
Fixpoint insert_sorted (f : string) (fs : list string) : list string :=
  match fs with
  | [] => [f]
  | g :: fs' => if String.leb f g then f :: fs else g :: insert_sorted f fs'
  end.

Definition np_sort (fs : list string) : list string :=
  fold_right insert_sorted [] fs.

(** Lines printed while building: the shape of [self.data], then the
    lines of [load_data]. *)
Inductive build_line : Set :=
| DataShape (rows cols : Z)
| Loading (l : CelebA.line).

(** The attributes of a [CelebADataSet]; [files] is the empty list where
    the code holds the empty string. *)
Record CelebADataSet : Type := Dataset {
  batch_size : Z;
  input_height : Z;
  input_width : Z;
  input_channel : Z;
  image_shape : list Z;
  output_height : Z;
  output_width : Z;
  output_channel : Z;
  split_rate : Q;
  random_state : Z;
  num_threads : Z;
  mode : string;
  path : string;
  files : list string;
  n_classes : Z;
  data : CelebA.images;
  num_images : Z;
  images : list (list Q)
}.

Definition set_files (self : CelebADataSet) (fs : list string) : CelebADataSet :=
  Dataset (batch_size self) (input_height self) (input_width self)
    (input_channel self) (image_shape self) (output_height self)
    (output_width self) (output_channel self) (split_rate self)
    (random_state self) (num_threads self) (mode self) (path self)
    fs (n_classes self) (data self) (num_images self) (images self).

Definition set_data (self : CelebADataSet) (d : CelebA.images) : CelebADataSet :=
  Dataset (batch_size self) (input_height self) (input_width self)
    (input_channel self) (image_shape self) (output_height self)
    (output_width self) (output_channel self) (split_rate self)
    (random_state self) (num_threads self) (mode self) (path self)
    (files self) (n_classes self) d (num_images self) (images self).

Definition set_images (self : CelebADataSet) (i : list (list Q)) : CelebADataSet :=
  Dataset (batch_size self) (input_height self) (input_width self)
    (input_channel self) (image_shape self) (output_height self)
    (output_width self) (output_channel self) (split_rate self)
    (random_state self) (num_threads self) (mode self) (path self)
    (files self) (n_classes self) (data self) (num_images self) i.

Section WithImages.
Context {pixel : Type}.

Definition image : Type := list (list pixel).

Variable py : python.
(** [imread(path)] and [imresize(img, (height, width))]. *)
Variable imread : string -> result image.
Variable imresize : image -> Z -> Z -> result image.
(** [self.data[n] = image.flatten()]: the row stored, or the exception. *)
Variable store_row : image -> result (list byte).
(** [np.zeros((rows, cols), dtype=np.uint8)]: the array, or the exception
    numpy raises for a shape it refuses (a negative dimension, an array
    too large). *)
Variable np_zeros : Z -> Z -> result CelebA.images.

(** [img.shape[:2]] *)
Definition shape2 (img : image) : Z * Z :=
  (Py.len img, match img with [] => 0 | r :: _ => Py.len r end).

(** The local function [get_image(path, w, h)] of [celeb_a]. *)
Definition get_image (path : string) (w h : Z) : result image :=
  img <- imread path ;;
  let (orig_h, orig_w) := shape2 img in
  new_h <- int_truediv (orig_h * w) orig_w ;;
  img <- imresize img new_h w ;;
  let margin := int_round_half py (new_h - h) in
  Ok (Py.slice img margin (margin + h)).

(** The loop [for n, f_name in tqdm(enumerate(self.files))]: the rows of
    [self.data], or the first exception. *)
Fixpoint fill (self : CelebADataSet) (fs : list string) : result CelebA.images :=
  match fs with
  | [] => Ok []
  | f_name :: fs' =>
      image <- get_image f_name (input_width self) (input_height self) ;;
      row <- store_row image ;;
      rows <- fill self fs' ;;
      Ok (row :: rows)
  end.

(** [self.images = self.load_data(size=self.num_images)] *)
Definition load_images (self : CelebADataSet) (hf : CelebA.h5file) (log : list build_line)
  : CelebA.h5file * list build_line * result CelebADataSet :=
  let (lines, r) := CelebA.load_data hf (Some (num_images self)) 0 in
  (hf, log ++ map Loading lines, imgs <- r ;; Ok (set_images self imgs)).

(** [celeb_a(self, mode)].  [listing] is what [glob] finds, [hf] the
    content of the container file before the call; the result is the
    content after the call, the lines printed, and the object or the
    exception raised. *)
Definition celeb_a (self : CelebADataSet) (mode0 : string)
    (listing : list string) (hf : CelebA.h5file)
  : CelebA.h5file * list build_line * result CelebADataSet :=
  if String.eqb mode0 "w" then
    let self := set_files self (np_sort listing) in
    let cols := input_height self * input_width self * input_channel self in
    match np_zeros (Py.len (files self)) cols with
    | Raise e => (hf, [], Raise e)
    | Ok zeros =>
        let self := set_data self zeros in
        let log := [DataShape (Py.len (files self)) cols] in
        if Py.len (files self) =? num_images self then
          match fill self (files self) with
          | Raise e => (hf, log, Raise e)
          | Ok rows =>
              let self := set_data self rows in
              load_images self (CelebA.write_cache (data self)) log
          end
        else (hf, log, Raise AssertionError)
    end
  else load_images self hf [].

(** [CelebADataSet.__init__]; the defaults are 128, 32, 32, 3, 32, 32, 3,
    0.2, 42, 8 and ['w']. *)
Definition __init__ (batch_size0 input_height0 input_width0 input_channel0
    output_height0 output_width0 output_channel0 : Z) (split_rate0 : Q)
    (random_state0 num_threads0 : Z) (mode0 : string)
    (listing : list string) (hf : CelebA.h5file)
  : CelebA.h5file * list build_line * result CelebADataSet :=
  let self :=
    Dataset batch_size0 input_height0 input_width0 input_channel0
      [batch_size0; input_height0; input_width0; input_channel0]
      output_height0 output_width0 output_channel0 split_rate0
      random_state0 num_threads0 mode0 ""%string [] 0 [] 202599 [] in
  celeb_a self (mode self) listing hf.
End WithImages.

Arguments get_image {pixel} py imread imresize path w h.
Arguments fill {pixel} py imread imresize store_row self fs.
Arguments celeb_a {pixel} py imread imresize store_row np_zeros self mode0 listing hf.
Arguments __init__ {pixel} py imread imresize store_row np_zeros batch_size0
  input_height0 input_width0 input_channel0 output_height0 output_width0
  output_channel0 split_rate0 random_state0 num_threads0 mode0 listing hf.
End CelebABuild.

(** * Properties *)

(** ** Slices of Python sequences *)

Module PyFacts.
Section Seq.
Context {A : Type}.
Implicit Types l : list A.

Lemma len_nonneg l : 0 <= Py.len l.
Proof. unfold Py.len. lia. Qed.

Lemma bound_inside n i : 0 <= i <= n -> Py.bound n i = i.
Proof.
  intros H. unfold Py.bound.
  destruct (Z.ltb_spec i 0); lia.
Qed.

Lemma bound_above n i : 0 <= n <= i -> Py.bound n i = n.
Proof.
  intros H. unfold Py.bound.
  destruct (Z.ltb_spec i 0); lia.
Qed.

(** A slice with both bounds inside the sequence is the contiguous run
    of [stop - start] elements that begins at [start]. *)
Lemma slice_inside l start stop :
  0 <= start <= stop -> stop <= Py.len l ->
  Py.slice l start stop
  = firstn (Z.to_nat (stop - start)) (skipn (Z.to_nat start) l).
Proof.
  intros H1 H2. unfold Py.slice.
  rewrite !bound_inside by lia. reflexivity.
Qed.

Lemma slice_from_inside l start :
  0 <= start <= Py.len l ->
  Py.slice_from l start = skipn (Z.to_nat start) l.
Proof.
  intros H. unfold Py.slice_from. now rewrite bound_inside.
Qed.

Lemma len_run l (p b : Z) :
  0 <= p -> 0 <= b -> p + b <= Py.len l ->
  Py.len (firstn (Z.to_nat b) (skipn (Z.to_nat p) l)) = b.
Proof.
  intros Hp Hb H. unfold Py.len in *.
  rewrite length_firstn, length_skipn. lia.
Qed.

(** The [k]-th element of a slice, when there is one, is the element
    [k] places after its lower bound; a slice whose bounds cross is empty. *)
Lemma slice_nth_error l start stop k a :
  nth_error (Py.slice l start stop) k = Some a ->
  nth_error l (Z.to_nat (Py.bound (Py.len l) start) + k) = Some a
  /\ Py.bound (Py.len l) start < Py.bound (Py.len l) stop.
Proof.
  unfold Py.slice. rewrite nth_error_firstn.
  destruct (Nat.ltb_spec k
              (Z.to_nat (Py.bound (Py.len l) stop - Py.bound (Py.len l) start)))
    as [Hk|Hk]; [|discriminate].
  rewrite nth_error_skipn. intros H. split; [exact H|lia].
Qed.

(** A non-negative lower bound below which an element is found is not
    clamped. *)
Lemma bound_at l start i a :
  0 <= start ->
  nth_error l (Z.to_nat (Py.bound (Py.len l) start) + i) = Some a ->
  Py.bound (Py.len l) start = start.
Proof.
  intros Hs H.
  assert (Hlt : (Z.to_nat (Py.bound (Py.len l) start) + i < length l)%nat)
    by (apply nth_error_Some; congruence).
  unfold Py.bound, Py.len in *.
  destruct (Z.ltb_spec start 0); lia.
Qed.

Lemma slice_length (l : list A) {T : Type} (t : list T) start stop :
  length l = length t ->
  length (Py.slice l start stop) = length (Py.slice t start stop).
Proof.
  intros H. unfold Py.slice, Py.len. rewrite <- H.
  rewrite !length_firstn, !length_skipn. lia.
Qed.

(** *** Fancy indexing *)

Lemma take_cons_inv l i idx r :
  Py.take l (i :: idx) = Ok r ->
  exists a r', nth_error l i = Some a /\ Py.take l idx = Ok r' /\ r = a :: r'.
Proof.
  cbn [Py.take]. destruct (nth_error l i) as [a|]; [|discriminate].
  destruct (Py.take l idx) as [r'|e]; cbn [bind]; [|discriminate].
  intros H. injection H as <-. eauto.
Qed.

Lemma take_length l idx r : Py.take l idx = Ok r -> length r = length idx.
Proof.
  revert r. induction idx as [|i idx IH]; intros r H.
  - injection H as <-. reflexivity.
  - apply take_cons_inv in H. destruct H as (a & r' & _ & H & ->).
    cbn [length]. f_equal. now apply IH.
Qed.

(** The [k]-th element taken is the element at the [k]-th index. *)
Lemma take_nth_error l idx r k a :
  Py.take l idx = Ok r -> nth_error r k = Some a ->
  exists j, nth_error idx k = Some j /\ nth_error l j = Some a.
Proof.
  revert r k. induction idx as [|i idx IH]; intros r k H Hk.
  - injection H as <-. destruct k; discriminate.
  - apply take_cons_inv in H. destruct H as (a' & r' & Hi & H & ->).
    destruct k as [|k]; cbn [nth_error] in *.
    + injection Hk as ->. eauto.
    + eapply IH; eauto.
Qed.

(** Indexing all positions in order returns the sequence itself. *)
Lemma take_seq l1 l2 :
  Py.take (l1 ++ l2) (seq (length l1) (length l2)) = Ok l2.
Proof.
  revert l1. induction l2 as [|a l2 IH]; intros l1; cbn [length seq Py.take].
  - reflexivity.
  - rewrite nth_error_app2 by lia. rewrite Nat.sub_diag. cbn [nth_error].
    specialize (IH (l1 ++ [a])).
    rewrite <- app_assoc, length_app in IH. cbn [length app] in IH.
    rewrite Nat.add_1_r in IH. rewrite IH. reflexivity.
Qed.

Lemma take_all l : Py.take l (seq 0 (length l)) = Ok l.
Proof. exact (take_seq [] l). Qed.
End Seq.

(** Indexing twice is indexing once by the composed indices. *)
Lemma take_take {A : Type} (l : list A) sigma x perm x' :
  Py.take l sigma = Ok x -> Py.take x perm = Ok x' ->
  exists sigma', Py.take sigma perm = Ok sigma' /\ Py.take l sigma' = Ok x'.
Proof.
  intros Hs. revert x'. induction perm as [|i perm IH]; intros x' H.
  - injection H as <-. exists []. split; reflexivity.
  - apply take_cons_inv in H. destruct H as (a & r & Hi & H & ->).
    destruct (IH _ H) as (s' & Hs1 & Hs2).
    destruct (take_nth_error _ _ _ _ _ Hs Hi) as (j & Hj & Hl).
    exists (j :: s'). cbn [Py.take]. rewrite Hj, Hs1, Hl, Hs2. split; reflexivity.
Qed.

(** A permutation of the positions of a sequence indexes it without
    error, and the result is a permutation of the sequence. *)
Lemma take_permutation {A : Type} (l : list A) perm :
  Permutation perm (seq 0 (length l)) ->
  exists r, Py.take l perm = Ok r /\ Permutation r l.
Proof.
  intros HP.
  assert (Hgen : forall p q, Permutation p q ->
            forall rq, Py.take l q = Ok rq ->
            exists rp, Py.take l p = Ok rp /\ Permutation rp rq).
  { induction 1 as [|i p q _ IH|i j p|p q t _ IH1 _ IH2]; intros rq Hq.
    - injection Hq as <-. exists []. split; [reflexivity|constructor].
    - apply take_cons_inv in Hq. destruct Hq as (a & r & Hi & Hq & ->).
      destruct (IH _ Hq) as (rp & Hp & HPp).
      exists (a :: rp). cbn [Py.take]. rewrite Hi, Hp. split; [reflexivity|].
      now constructor.
    - apply take_cons_inv in Hq. destruct Hq as (a & r & Hi & Hq & ->).
      apply take_cons_inv in Hq. destruct Hq as (c & r' & Hj & Hq & ->).
      exists (c :: a :: r'). cbn [Py.take]. rewrite Hi, Hj, Hq.
      split; [reflexivity|constructor].
    - destruct (IH2 _ Hq) as (r2 & H2 & HP2).
      destruct (IH1 _ H2) as (r1 & H1 & HP1).
      exists r1. split; [exact H1|]. now transitivity r2. }
  apply (Hgen _ _ HP). apply take_all.
Qed.
End PyFacts.

(** ** The chunk count in double precision *)

Module DoubleFacts.
Import CelebA.

(** The exponent found for a quotient below one is negative, and scaling
    by it brings the numerator up to the denominator. *)
Lemma ilog2_below a b :
  1 <= a -> a < b ->
  Float.ilog2 a b < 0 /\ b <= a * 2 ^ (- Float.ilog2 a b).
Proof.
  intros Ha Hb. unfold Float.ilog2.
  pose proof (Z.log2_le_mono a b ltac:(lia)) as Hm.
  pose proof (Z.log2_spec a ltac:(lia)) as [Ha1 Ha2].
  pose proof (Z.log2_spec b ltac:(lia)) as [Hb1 Hb2].
  pose proof (Z.log2_nonneg a) as Hna.
  remember (Z.log2 a - Z.log2 b) as k eqn:Ek.
  destruct (Z.leb_spec 0 k) as [Hk|Hk].
  - assert (k = 0) by lia. replace k with 0 by lia.
    destruct (Z.leb_spec (b * 2 ^ 0) a) as [H1|H1];
      [change (2 ^ 0) with 1 in H1; lia|].
    split; [lia|]. change (- (0 - 1)) with 1. change (2 ^ 1) with 2.
    assert (Z.log2 b = Z.log2 a) by lia.
    replace (Z.succ (Z.log2 b)) with (Z.log2 a + 1) in Hb2 by lia.
    rewrite Z.pow_add_r in Hb2 by lia. change (2 ^ 1) with 2 in Hb2. lia.
  - destruct (Z.leb_spec b (a * 2 ^ (- k))) as [H1|H1].
    + split; [lia|exact H1].
    + split; [lia|].
      replace (- (k - 1)) with (Z.log2 b + 1 - Z.log2 a) by lia.
      assert (E : 2 ^ (Z.log2 b + 1)
                  = 2 ^ Z.log2 a * 2 ^ (Z.log2 b + 1 - Z.log2 a)).
      { rewrite <- Z.pow_add_r by lia. f_equal. lia. }
      replace (Z.succ (Z.log2 b)) with (Z.log2 b + 1) in Hb2 by lia.
      assert (0 < 2 ^ (Z.log2 b + 1 - Z.log2 a))
        by (apply Z.pow_pos_nonneg; lia).
      nia.
Qed.

(** The exponent found for a quotient of at least one is not negative and
    does not exceed the quotient. *)
Lemma ilog2_inside a b :
  1 <= b <= a -> 0 <= Float.ilog2 a b /\ b * 2 ^ Float.ilog2 a b <= a.
Proof.
  intros [Hb Hab]. unfold Float.ilog2.
  pose proof (Z.log2_le_mono b a Hab) as Hm.
  pose proof (Z.log2_spec a ltac:(lia)) as [Ha1 Ha2].
  pose proof (Z.log2_spec b ltac:(lia)) as [Hb1 Hb2].
  pose proof (Z.log2_nonneg b) as Hnb.
  remember (Z.log2 a - Z.log2 b) as k eqn:Ek.
  destruct (Z.leb_spec 0 k) as [Hk|Hk]; [|lia].
  destruct (Z.leb_spec (b * 2 ^ k) a) as [H1|H1]; [split; [lia|exact H1]|].
  assert (Hk0 : k <> 0) by (intros ->; change (2 ^ 0) with 1 in H1; lia).
  split; [lia|].
  assert (E : 2 ^ Z.log2 a = 2 ^ (Z.log2 b + 1) * 2 ^ (k - 1)).
  { rewrite <- Z.pow_add_r by lia. f_equal. lia. }
  replace (Z.succ (Z.log2 b)) with (Z.log2 b + 1) in Hb2 by lia.
  assert (0 < 2 ^ (k - 1)) by (apply Z.pow_pos_nonneg; lia).
  nia.
Qed.

(** Rounding to the nearest integer does not cross an integer bound, and
    passes an integer that is more than a half below. *)
Lemma rint_frac_upper n d D :
  0 < d -> n <= d * D -> Float.rint_frac n d <= D.
Proof.
  intros Hd HD. unfold Float.rint_frac.
  pose proof (Z.div_mod n d ltac:(lia)) as E.
  pose proof (Z.mod_pos_bound n d Hd) as B.
  assert (n / d <= D) by nia.
  destruct (Z.compare_spec (2 * (n mod d)) d) as [Hc|Hc|Hc].
  - assert (n / d <> D) by nia. destruct (Z.even (n / d)); lia.
  - lia.
  - assert (n / d <> D) by nia. lia.
Qed.

Lemma rint_frac_lower n d F :
  0 < d -> d < 2 * (n - d * F) -> F + 1 <= Float.rint_frac n d.
Proof.
  intros Hd HF. unfold Float.rint_frac.
  pose proof (Z.div_mod n d ltac:(lia)) as E.
  pose proof (Z.mod_pos_bound n d Hd) as B.
  assert (F <= n / d) by nia.
  destruct (Z.compare_spec (2 * (n mod d)) d) as [Hc|Hc|Hc].
  - assert (n / d <> F) by nia. destruct (Z.even (n / d)); lia.
  - assert (n / d <> F) by nia. lia.
  - lia.
Qed.

Lemma ceiling_frac m D c :
  0 < D -> (c - 1) * D < m <= c * D -> Qceiling (m # Z.to_pos D) = c.
Proof.
  intros HD Hm. unfold Qceiling, Qfloor, Qopp. cbn [Qnum Qden].
  rewrite Z2Pos.id by lia.
  assert (E : - m = (- c) * D + (c * D - m)) by lia.
  rewrite E, Z.div_add_l by lia.
  rewrite (Z.div_small (c * D - m)) by lia. lia.
Qed.

(** A size above the row count, up to 2^1074: the quotient rounds to a
    double in (0, 1], whose ceiling is one. *)
Lemma n_chunks_double_oversized a b :
  1 <= a < b -> b <= 2 ^ 1074 -> n_chunks_double a b = Ok 1.
Proof.
  intros [Ha Hab] Hb. unfold n_chunks_double.
  destruct (Z.eqb_spec b 0); [lia|]. f_equal.
  rewrite Z.sgn_pos, Z.mul_1_r, Z.abs_eq by lia.
  unfold Float.to_double, Float.round_ne. cbn [Qnum Qden].
  rewrite Z.abs_eq, Z2Pos.id, Z.sgn_pos, Z.mul_1_l by lia.
  destruct (Z.eqb_spec a 0); [lia|].
  destruct (ilog2_below a b Ha Hab) as [Hk Hlow].
  set (k := Float.ilog2 a b) in *.
  remember (Z.max (k - 53 + 1) (-1074)) as e eqn:Ee.
  assert (He : e < 0) by lia.
  assert (Hp : 0 < 2 ^ (- e)) by (apply Z.pow_pos_nonneg; lia).
  assert (Hge : b <= a * 2 ^ (- e)).
  { destruct (Z.max_spec (k - 53 + 1) (-1074)) as [[_ Hm]|[_ Hm]];
      rewrite <- Ee in Hm.
    - rewrite Hm. change (- -1074) with 1074.
      assert (0 < 2 ^ 1074) by (apply Z.pow_pos_nonneg; lia).
      generalize dependent (2 ^ 1074). intros X ? ?. nia.
    - assert (2 ^ (- k) <= 2 ^ (- e)) by (apply Z.pow_le_mono_r; lia). nia. }
  rewrite (Qceiling_comp _ _ (Qred_correct _)).
  unfold Float.scale2. destruct (Z.leb_spec 0 e); [lia|].
  apply ceiling_frac; [exact Hp|]. split.
  - assert (0 + 1 <= Float.rint_frac (a * 2 ^ (- e)) b); [|lia].
    apply rint_frac_lower; lia.
  - rewrite Z.mul_1_l. apply rint_frac_upper; [lia|]. nia.
Qed.

(** A size within the row count, itself below 2^53: rounding the quotient
    moves it across no integer. *)
Lemma n_chunks_double_inside a b :
  1 <= b <= a -> a < 2 ^ 53 -> n_chunks_double a b = Py.ceildiv a b.
Proof.
  intros [Hb Hab] Ha. unfold n_chunks_double, Py.ceildiv.
  destruct (Z.eqb_spec b 0); [lia|]. f_equal.
  rewrite Z.sgn_pos, Z.mul_1_r, Z.abs_eq by lia.
  pose proof (Z.div_mod (- a) b ltac:(lia)) as Ed.
  pose proof (Z.mod_pos_bound (- a) b ltac:(lia)) as Bd.
  set (c := - (- a / b)).
  assert (Hc : (c - 1) * b < a <= c * b) by (subst c; nia).
  unfold Float.to_double, Float.round_ne. cbn [Qnum Qden].
  rewrite Z.abs_eq, Z2Pos.id, Z.sgn_pos, Z.mul_1_l by lia.
  destruct (Z.eqb_spec a 0); [lia|].
  destruct (ilog2_inside a b (conj Hb Hab)) as [Hk Hlow].
  set (k := Float.ilog2 a b) in *.
  assert (Hk53 : k < 53).
  { destruct (Z.lt_ge_cases k 53) as [|Hge]; [assumption|].
    assert (2 ^ 53 <= 2 ^ k) by (apply Z.pow_le_mono_r; lia). nia. }
  rewrite (Qceiling_comp _ _ (Qred_correct _)).
  replace (Z.max (k - 53 + 1) (-1074)) with (k - 52) by lia.
  unfold Float.scale2.
  destruct (Z.leb_spec 0 (k - 52)) as [He|He].
  - assert (k = 52) by lia. subst k.
    replace (Float.ilog2 a b) with 52 in * by lia.
    change (52 - 52) with 0. change (2 ^ 0) with 1. rewrite !Z.mul_1_r.
    assert (b = 1).
    { change (2 ^ 53) with (2 * 2 ^ 52) in Ha.
      assert (0 < 2 ^ 52) by (apply Z.pow_pos_nonneg; lia). nia. }
    subst b. rewrite Qceiling_Z.
    unfold Float.rint_frac. rewrite Z.mod_1_r, Z.div_1_r. cbn.
    lia.
  - assert (HD : 0 < 2 ^ (- (k - 52))) by (apply Z.pow_pos_nonneg; lia).
    assert (H2 : 2 * 2 ^ (- (k - 52)) * 2 ^ k = 2 ^ 53).
    { change 2 with (2 ^ 1) at 1. rewrite <- !Z.pow_add_r by lia. f_equal. lia. }
    assert (Hkp : 0 < 2 ^ k) by (apply Z.pow_pos_nonneg; lia).
    set (D := 2 ^ (- (k - 52))) in *.
    assert (HbD : b < 2 * D) by nia.
    apply ceiling_frac; [exact HD|]. split.
    + assert (Hl : (c - 1) * D + 1 <= Float.rint_frac (a * D) b); [|lia].
      apply rint_frac_lower; [lia|].
      assert (1 <= a - (c - 1) * b) by lia.
      replace (a * D - b * ((c - 1) * D)) with ((a - (c - 1) * b) * D) by ring.
      nia.
    + apply rint_frac_upper; [lia|]. nia.
Qed.

(** Beyond that bound the two part: three rows at size 2^1100 make a
    quotient that rounds to zero. *)
Lemma n_chunks_double_underflow :
  n_chunks_double 3 (2 ^ 1100) = Ok 0 /\ Py.ceildiv 3 (2 ^ 1100) = Ok 1.
Proof. split; vm_compute; reflexivity. Qed.
End DoubleFacts.

(** ** The loader *)

Module CelebAFacts.
Import CelebA.

(** [number_of_chunks hf size] is the local [n_chunks] of [load_data]. *)
Definition number_of_chunks (hf : h5file) (size : option Z) : result Z :=
  faces <- h5_get hf "images" ;;
  Py.ceildiv (Py.len faces) (match size with None => Py.len faces | Some s => s end).

(** The chunk that starts at row [i * s]: [s] rows, or those that remain. *)
Definition chunk (faces : images) (s i : Z) : images :=
  firstn (Z.to_nat (Z.min s (Py.len faces - i * s))) (skipn (Z.to_nat (i * s)) faces).

Lemma write_cache_get data : h5_get (write_cache data) "images" = Ok data.
Proof. reflexivity. Qed.

(** For a positive chunk size the chunk count [n] is the least integer
    with [total <= n * s]. *)
Lemma ceildiv_spec total s n :
  1 <= s -> Py.ceildiv total s = Ok n ->
  (n - 1) * s < total <= n * s.
Proof.
  intros Hs H. unfold Py.ceildiv in H.
  destruct (Z.eqb_spec s 0) as [->|_]; [lia|].
  injection H as <-.
  pose proof (Z.div_mod (- total) s ltac:(lia)) as E.
  pose proof (Z.mod_pos_bound (- total) s ltac:(lia)) as B.
  nia.
Qed.

Lemma ceildiv_defined total s : s <> 0 -> exists n, Py.ceildiv total s = Ok n.
Proof.
  intros Hs. unfold Py.ceildiv.
  destruct (Z.eqb_spec s 0); [contradiction|]. eauto.
Qed.

(** Inside the range of chunk indices nothing wraps, and the rows returned
    are the run of at most [s] rows that starts at row [i * s]. *)
Lemma load_data_inside hf faces s i n :
  h5_get hf "images" = Ok faces ->
  1 <= s -> Py.ceildiv (Py.len faces) s = Ok n -> 0 <= i < n ->
  loaded hf (Some s) i = Ok (map (map normalize) (chunk faces s i))
  /\ fst (load_data hf (Some s) i)
     = (if i =? n - 1 then [NotEnoughDataClippingToEnd] else [])
       ++ [ImageSize (List.length (chunk faces s i))].
Proof.
  intros Hget Hs Hn Hi.
  pose proof (ceildiv_spec _ _ _ Hs Hn) as Hc.
  assert (Hmono : i * s <= (n - 1) * s)
    by (apply Z.mul_le_mono_nonneg_r; lia).
  assert (His : 0 <= i * s /\ i * s < Py.len faces)
    by (split; [apply Z.mul_nonneg_nonneg|]; lia).
  unfold loaded, load_data, chunk. rewrite Hget, Hn.
  destruct (Z.leb_spec n i) as [?|_]; [lia|].
  destruct (Z.eqb_spec i (n - 1)) as [El|Nl]; cbn [fst snd app].
  - rewrite PyFacts.slice_from_inside by lia.
    assert (Hm : Z.min s (Py.len faces - i * s) = Py.len faces - i * s)
      by (subst i; lia).
    rewrite Hm.
    assert (Hall : firstn (Z.to_nat (Py.len faces - i * s)) (skipn (Z.to_nat (i * s)) faces)
                   = skipn (Z.to_nat (i * s)) faces).
    { apply firstn_all2. rewrite length_skipn. unfold Py.len. lia. }
    rewrite Hall. split; reflexivity.
  - assert (Hle : (i + 1) * s <= (n - 1) * s)
      by (apply Z.mul_le_mono_nonneg_r; lia).
    rewrite PyFacts.slice_inside by lia.
    assert (Hm : Z.min s (Py.len faces - i * s) = s) by lia.
    rewrite Hm.
    replace ((i + 1) * s - i * s) with s by lia.
    split; reflexivity.
Qed.


(** Whatever [load_data] returns is the normalisation of a contiguous run
    of rows of the stored array. *)
Lemma loaded_rows hf size offset out :
  loaded hf size offset = Ok out ->
  exists faces a c,
    h5_get hf "images" = Ok faces
    /\ out = map (map normalize) (firstn c (skipn a faces)).
Proof.
  unfold loaded, load_data.
  destruct (h5_get hf "images") as [faces|e]; [|discriminate].
  destruct (Py.ceildiv _ _) as [n|e]; [|discriminate].
  destruct (if n <=? offset then Py.modulo offset n else Ok offset) as [o|e];
    [|discriminate].
  cbn [snd]. intros H. injection H as <-.
  destruct (o =? n - 1).
  - exists faces. eexists. exists (List.length faces).
    split; [reflexivity|]. unfold Py.slice_from.
    rewrite firstn_all2; [reflexivity|]. rewrite length_skipn. lia.
  - eexists faces, _, _. split; reflexivity.
Qed.

(** *** Normalisation of one byte *)

Definition byte_roundtrip (b : byte) : bool :=
  Qle_bool 0 (normalize b) && Qle_bool (normalize b) 1
  && (denormalize (normalize b) =? byte_value b)
  && (denormalize_half (normalize b) =? byte_value b).

Lemma byte_roundtrip_all b : byte_roundtrip b = true.
Proof. destruct b; vm_compute; reflexivity. Qed.

Lemma normalize_roundtrip b :
  (0 <= normalize b <= 1)%Q
  /\ denormalize (normalize b) = byte_value b
  /\ denormalize_half (normalize b) = byte_value b.
Proof.
  pose proof (byte_roundtrip_all b) as H. unfold byte_roundtrip in H.
  repeat (apply andb_prop in H; destruct H as [H ?]).
  repeat split.
  - now apply Qle_bool_iff.
  - now apply Qle_bool_iff.
  - now apply Z.eqb_eq.
  - now apply Z.eqb_eq.
Qed.

Lemma Forall_rows (P : Q -> Prop) (f : byte -> Q) (rows : images) :
  (forall b, P (f b)) -> Forall (Forall P) (map (map f) rows).
Proof.
  intros H. apply Forall_map, Forall_forall. intros r _.
  apply Forall_map, Forall_forall. intros b _. apply H.
Qed.

Lemma map_rows (f : Q -> Z) (rows : images) :
  (forall b, f (normalize b) = byte_value b) ->
  map (map f) (map (map normalize) rows) = map (map byte_value) rows.
Proof.
  intros H. rewrite map_map. apply map_ext. intros r.
  rewrite map_map. apply map_ext. intros b. apply H.
Qed.

(** *** Chunks *)





(** C10, as the claim states it, fails on an empty store: there is no
    chunk, and the wrap-around divides by zero. *)
Lemma load_data_empty_store_raises :
  Py.len (@nil (list byte)) < 1
  /\ number_of_chunks (write_cache []) (Some 1) = Ok 0
  /\ loaded (write_cache []) (Some 1) 0 = Raise ZeroDivisionError.
Proof. repeat split. Qed.

(** C10, amended.  When the store is not empty and the chunk size [s]
    exceeds the number of stored rows without exceeding 2^1074 (a bound
    under which the double-precision quotient of the row count by the size
    does not round to zero), there is one chunk, also as counted in double
    precision, and [load_data(size=s, offset=0)] does not raise: the chunk
    is handled as the last one (the clipping notice is printed, the
    wrap-around notice is not) and every stored row is returned,
    normalised. *)
Theorem load_data_oversized_chunk hf faces s :
  h5_get hf "images" = Ok faces ->
  1 <= Py.len faces ->
  Py.len faces < s <= 2 ^ 1074 ->
  number_of_chunks hf (Some s) = Ok 1
  /\ n_chunks_double (Py.len faces) s = Ok 1
  /\ load_data hf (Some s) 0
     = ([NotEnoughDataClippingToEnd; ImageSize (List.length faces)],
        Ok (map (map normalize) faces)).
Proof.
  intros Hget H1 [Hs Hmax].
  destruct (ceildiv_defined (Py.len faces) s ltac:(lia)) as [n Hn].
  pose proof (ceildiv_spec (Py.len faces) s n ltac:(lia) Hn) as Hc.
  assert (n = 1) by nia. subst n.
  split; [|split].
  - unfold number_of_chunks. rewrite Hget. exact Hn.
  - apply DoubleFacts.n_chunks_double_oversized; [split; assumption|exact Hmax].
  - destruct (load_data_inside hf faces s 0 1 Hget ltac:(lia) Hn ltac:(lia))
      as [Hv Hlog].
    assert (Hch : chunk faces s 0 = faces).
    { unfold chunk. rewrite Z.mul_0_l, Z.sub_0_r. cbn [Z.to_nat skipn].
      apply firstn_all2. unfold Py.len in *. lia. }
    rewrite Hch in *. unfold loaded in Hv.
    destruct (load_data hf (Some s) 0) as [log r]. cbn [fst snd] in *.
    now subst.
Qed.

Lemma load_data_oversized_chunk_witness :
  n_chunks_double 3 7 = Ok 1
  /\ load_data (write_cache [[x01]; [x02]; [x03]]) (Some 7) 0
     = ([NotEnoughDataClippingToEnd; ImageSize 3],
        Ok (map (map normalize) [[x01]; [x02]; [x03]])).
Proof.
  apply (load_data_oversized_chunk (write_cache [[x01]; [x02]; [x03]])
           [[x01]; [x02]; [x03]] 7).
  - reflexivity.
  - unfold Py.len; simpl; lia.
  - split; [unfold Py.len; simpl; lia|].
    apply Z.leb_le. vm_compute. reflexivity.
Defined.

(** *** Round trip through the container *)

(** C9.  Write an array of bytes to the container and load any chunk of
    it.  Every returned value lies in [0, 1], and the returned chunk is the
    normalisation of a contiguous run of the rows written whose bytes are
    recovered exactly by multiplying by 255 and rounding to the nearest
    integer, whether the product is exact or itself rounded to half
    precision. *)
Theorem normalize_round_trip data size offset out :
  loaded (write_cache data) size offset = Ok out ->
  Forall (Forall (fun v => 0 <= v <= 1)%Q) out
  /\ exists a c,
       let rows := firstn c (skipn a data) in
       out = map (map normalize) rows
       /\ map (map denormalize) out = map (map byte_value) rows
       /\ map (map denormalize_half) out = map (map byte_value) rows.
Proof.
  intros H.
  destruct (loaded_rows _ _ _ _ H) as (faces & a & c & Hget & ->).
  rewrite write_cache_get in Hget. injection Hget as <-.
  split.
  - apply Forall_rows. intros b. apply normalize_roundtrip.
  - exists a, c. cbv zeta. split; [reflexivity|]. split.
    + apply map_rows. intros b. apply normalize_roundtrip.
    + apply map_rows. intros b. apply normalize_roundtrip.
Qed.

Lemma normalize_round_trip_witness :
  Forall (Forall (fun v => 0 <= v <= 1)%Q)
         (map (map normalize) [[x00; xff]; [x80; x7f]]).
Proof.
  apply (normalize_round_trip [[x00; xff]; [x80; x7f]] (Some 2) 0).
  reflexivity.
Defined.
End CelebAFacts.

(** ** The iterator *)

Module IteratorFacts.
Import Iterator.

Section WithRandom.
Context {A B rng : Type}.
Variable shuffle : rng -> list nat -> rng * list nat.

Abbreviation iterator := (@DataIterator A B).
Abbreviation next_batch := (@next_batch A B rng shuffle).
Abbreviation calls := (@calls A B rng shuffle).
Abbreviation iterate := (@iterate A B rng shuffle).
Abbreviation np_random_shuffle := (@np_random_shuffle rng shuffle).

Implicit Types (self it : iterator) (w : world rng).

(** [np.random.shuffle] permutes its argument. *)
Definition shuffle_permutes : Prop :=
  forall g a, Permutation (snd (shuffle g a)) a.

(** The rows [p], ..., [p + b - 1] of an array. *)
Definition rows_from {T : Type} (l : list T) (p b : Z) : list T :=
  firstn (Z.to_nat b) (skipn (Z.to_nat p) l).

(** What [next_batch] returns for the bounds [start] and [end]. *)
Definition batch_of it (start end_ : Z) : batch :=
  match y it with
  | Some ys => Pair (Py.slice (x it) start end_) (Py.slice ys start end_)
  | None => Single (Py.slice (x it) start end_)
  end.

(** The attributes agree with each other: [num_examples] is the number of
    feature rows, [y] is set exactly when labels are on, and then it has
    as many rows as [x]. *)
Definition sound it : Prop :=
  num_examples it = Py.len (x it)
  /\ match y it with
     | Some ys => label_off it = false /\ length ys = length (x it)
     | None => label_off it = true
     end.

(** [it'] and [w'] are [it] and [w] after one reshuffle: one permutation
    of the row positions is drawn, both arrays are indexed by it, and the
    cursor is placed after the first batch. *)
Definition reshuffled w it it' w' : Prop :=
  exists perm,
    np_random_shuffle w (Py.arange (num_examples it)) = (w', perm)
    /\ Permutation perm (Py.arange (num_examples it))
    /\ Py.take (x it) perm = Ok (x it')
    /\ match y it with
       | Some ys => exists ys', y it' = Some ys' /\ Py.take ys perm = Ok ys'
       | None => y it' = None
       end
    /\ pointer it' = batch_size it
    /\ batch_size it' = batch_size it
    /\ num_examples it' = num_examples it
    /\ num_batches it' = num_batches it
    /\ label_off it' = label_off it.

Lemma shuffle_world w a :
  shuffles (fst (np_random_shuffle w a)) = S (shuffles w).
Proof.
  unfold Iterator.np_random_shuffle. destruct (shuffle (gen w) a). reflexivity.
Qed.

Lemma shuffle_draw w a :
  shuffle_permutes -> Permutation (snd (np_random_shuffle w a)) a.
Proof.
  intros H. unfold Iterator.np_random_shuffle.
  specialize (H (gen w) a). destruct (shuffle (gen w) a). exact H.
Qed.

(** *** One call *)

(** While the advanced cursor stays within the array, the call returns
    the slice between the old and the new cursor and changes nothing but
    the cursor. *)
Lemma next_batch_advance w it :
  sound it ->
  pointer it + batch_size it <= num_examples it ->
  next_batch w it
  = Ok (batch_of it (pointer it) (pointer it + batch_size it),
        set_pointer it (pointer it + batch_size it), w).
Proof.
  intros [_ Hy] Hp. unfold Iterator.next_batch, batch_of, get_y, set_pointer.
  cbn [pointer num_examples label_off x y batch_size].
  destruct (Z.ltb_spec (num_examples it) (pointer it + batch_size it)); [lia|].
  cbn [bind pointer num_examples label_off x y batch_size].
  destruct (y it) as [ys|]; [destruct Hy as [-> _]|rewrite Hy]; reflexivity.
Qed.

(** When the advanced cursor passes the end, the arrays are reshuffled
    and the call returns the slice from 0 to the batch size. *)
Lemma next_batch_reshuffle w it :
  shuffle_permutes ->
  sound it ->
  num_examples it < pointer it + batch_size it ->
  exists it' w',
    next_batch w it = Ok (batch_of it' 0 (batch_size it), it', w')
    /\ reshuffled w it it' w'
    /\ sound it'.
Proof.
  intros Hsh [Hn Hy] Hp.
  pose proof (shuffle_draw w (Py.arange (num_examples it)) Hsh) as HP.
  unfold Iterator.next_batch, reshuffle, reshuffled, batch_of, sound,
    get_y, set_pointer, set_x, set_y.
  cbn [pointer num_examples label_off x y batch_size].
  destruct (Z.ltb_spec (num_examples it) (pointer it + batch_size it)); [|lia].
  destruct (np_random_shuffle w (Py.arange (num_examples it))) as [w' perm] eqn:E.
  cbn [snd] in HP.
  assert (HPx : Permutation perm (seq 0 (length (x it)))).
  { unfold Py.arange in HP. rewrite Hn in HP. unfold Py.len in HP.
    now rewrite Nat2Z.id in HP. }
  destruct (PyFacts.take_permutation (x it) perm HPx) as (x' & Hx' & HPx').
  rewrite Hx'. cbn [bind pointer num_examples label_off x y batch_size].
  destruct (y it) as [ys|] eqn:Ey.
  - destruct Hy as [Hl Hlen]. rewrite Hl. cbn [negb bind].
    assert (HPy : Permutation perm (seq 0 (length ys))) by now rewrite Hlen.
    destruct (PyFacts.take_permutation ys perm HPy) as (y' & Hy' & HPy').
    rewrite Hy'.
    cbn [bind pointer num_examples num_batches label_off x y batch_size negb].
    exists (Build x' false (Some y') (batch_size it) (num_examples it)
              (num_batches it) (batch_size it)), w'.
    split; [reflexivity|].
    cbn [x y pointer batch_size num_examples num_batches label_off].
    split.
    + exists perm. repeat split; eauto.
    + split.
      * rewrite Hn. unfold Py.len.
        now rewrite (Permutation_length HPx').
      * split; [reflexivity|].
        now rewrite (Permutation_length HPy'), (Permutation_length HPx').
  - rewrite Hy.
    cbn [bind pointer num_examples num_batches label_off x y batch_size negb].
    exists (Build x' true None (batch_size it) (num_examples it)
              (num_batches it) (batch_size it)), w'.
    split; [reflexivity|].
    cbn [x y pointer batch_size num_examples num_batches label_off].
    split.
    + exists perm. repeat split; eauto.
    + split; [|reflexivity].
      rewrite Hn. unfold Py.len. now rewrite (Permutation_length HPx').
Qed.

(** *** Construction *)

Lemma init_inv x0 y0 b lo it0 :
  __init__ x0 y0 b lo = Ok it0 ->
  b <> 0 /\ b <= Py.len x0
  /\ it0 = Build x0 lo (if negb lo then Some y0 else None) b
                 (Py.len x0) (Py.len x0 / b) 0.
Proof.
  unfold __init__, Py.floordiv.
  destruct (Z.eqb_spec b 0) as [->|Hb]; [discriminate|]. cbn [bind].
  destruct (Z.leb_spec b (Py.len x0)) as [Hle|_]; [|discriminate].
  intros H. injection H as <-. auto.
Qed.

Lemma init_sound x0 y0 b lo it0 :
  __init__ x0 y0 b lo = Ok it0 ->
  (lo = false -> length y0 = length x0) ->
  sound it0.
Proof.
  intros H Hlen. apply init_inv in H. destruct H as (_ & _ & ->).
  unfold sound. cbn [num_examples x y label_off]. split; [reflexivity|].
  destruct lo; cbn [negb]; auto.
Qed.

(** *** Row counts *)

(** The configuration [next_batch] never changes. *)
Definition same_config it it' : Prop :=
  batch_size it' = batch_size it
  /\ num_examples it' = num_examples it
  /\ num_batches it' = num_batches it
  /\ label_off it' = label_off it.

(** A positive batch size, and a cursor inside the array. *)
Definition ranged it : Prop :=
  1 <= batch_size it <= num_examples it
  /\ 0 <= pointer it <= num_examples it.

Definition has_rows (o : @batch A B) (n : Z) : Prop :=
  Py.len (features o) = n
  /\ match labels o with Some ys => Py.len ys = n | None => True end.

Lemma same_config_refl it : same_config it it.
Proof. repeat split. Qed.

Lemma same_config_trans it1 it2 it3 :
  same_config it1 it2 -> same_config it2 it3 -> same_config it1 it3.
Proof. unfold same_config. intuition congruence. Qed.

Lemma reshuffled_config w it it' w' :
  reshuffled w it it' w' -> same_config it it' /\ pointer it' = batch_size it.
Proof.
  intros (perm & _ & _ & _ & _ & Hp & Hb & Hn & Hnb & Hl).
  repeat split; assumption.
Qed.

(** Inside the array a slice is the run of rows between its bounds. *)
Lemma batch_of_rows it p c :
  sound it -> 0 <= p -> 0 <= c -> p + c <= num_examples it ->
  features (batch_of it p (p + c)) = rows_from (x it) p c
  /\ labels (batch_of it p (p + c))
     = option_map (fun ys => rows_from ys p c) (y it)
  /\ has_rows (batch_of it p (p + c)) c.
Proof.
  intros [Hn Hy] Hp Hc Hle. unfold batch_of, has_rows, rows_from.
  rewrite Hn in Hle.
  destruct (y it) as [ys|]; cbn [features labels option_map].
  - destruct Hy as [_ Hlen].
    assert (Hle' : p + c <= Py.len ys) by (unfold Py.len in *; lia).
    rewrite !PyFacts.slice_inside by lia.
    replace (p + c - p) with c by lia.
    repeat split; apply PyFacts.len_run; lia.
  - rewrite !PyFacts.slice_inside by lia.
    replace (p + c - p) with c by lia.
    repeat split. apply PyFacts.len_run; lia.
Qed.

(** *** Any number of calls *)

(** In a sound state a call never raises. *)
Lemma next_batch_defined w it :
  shuffle_permutes -> sound it ->
  exists out it' w',
    next_batch w it = Ok (out, it', w')
    /\ sound it' /\ same_config it it'
    /\ (ranged it -> ranged it' /\ has_rows out (batch_size it)).
Proof.
  intros Hsh Hs.
  destruct (Z.le_gt_cases (pointer it + batch_size it) (num_examples it)) as [Hp|Hp].
  - rewrite (next_batch_advance w it Hs Hp).
    eexists _, _, _. split; [reflexivity|].
    split; [exact Hs|]. split; [repeat split|].
    intros [Hb Hr]. split.
    + unfold ranged. cbn [set_pointer batch_size num_examples pointer]. lia.
    + apply batch_of_rows; try assumption; lia.
  - destruct (next_batch_reshuffle w it Hsh Hs Hp) as (it' & w' & -> & Hr & Hs').
    destruct (reshuffled_config _ _ _ _ Hr) as [Hc Hptr].
    eexists _, _, _. split; [reflexivity|].
    split; [exact Hs'|]. split; [exact Hc|].
    intros [Hb _]. destruct Hc as (Hb' & Hn' & _ & _). split.
    + unfold ranged. lia.
    + replace (batch_size it) with (0 + batch_size it) at 1 by lia.
      apply batch_of_rows; try assumption; lia.
Qed.

Lemma calls_defined k : forall w it,
  shuffle_permutes -> sound it ->
  exists outs it' w',
    calls k w it = Ok (outs, it', w')
    /\ sound it' /\ same_config it it' /\ length outs = k
    /\ (ranged it ->
        ranged it' /\ Forall (fun o => has_rows o (batch_size it)) outs).
Proof.
  induction k as [|k IH]; intros w it Hsh Hs; cbn [Iterator.calls].
  - exists [], it, w. split; [reflexivity|].
    split; [exact Hs|]. split; [apply same_config_refl|].
    split; [reflexivity|]. intros Hr. split; [exact Hr|constructor].
  - destruct (next_batch_defined w it Hsh Hs) as (o & it1 & w1 & -> & Hs1 & Hc1 & Hr1).
    cbn [bind].
    destruct (IH w1 it1 Hsh Hs1) as (os & it2 & w2 & -> & Hs2 & Hc2 & Hlen & Hr2).
    cbn [bind]. eexists _, _, _. split; [reflexivity|].
    split; [exact Hs2|]. split; [eapply same_config_trans; eassumption|].
    split; [cbn [length]; congruence|].
    intros Hr. destruct (Hr1 Hr) as [Hr1' Ho].
    destruct (Hr2 Hr1') as [Hr2' Hos]. split; [exact Hr2'|].
    constructor; [exact Ho|].
    destruct Hc1 as (Hb & _). now rewrite Hb in Hos.
Qed.

Lemma calls_app k m : forall w it,
  calls (k + m) w it
  = ('(o1, it1, w1) <- calls k w it ;;
     '(o2, it2, w2) <- calls m w1 it1 ;;
     Ok (o1 ++ o2, it2, w2)).
Proof.
  induction k as [|k IH]; intros w it; cbn [Iterator.calls Nat.add bind].
  - destruct (calls m w it) as [[[o2 it2] w2]|e]; reflexivity.
  - destruct (next_batch w it) as [[[o it1] w1]|e]; cbn [bind]; [|reflexivity].
    rewrite IH.
    destruct (calls k w1 it1) as [[[o1 it2] w2]|e]; cbn [bind]; [|reflexivity].
    destruct (calls m w2 it2) as [[[o2 it3] w3]|e]; reflexivity.
Qed.

(** *** Calls that stay inside the array *)

(** The batches of [k] calls that start at cursor [p] without reshuffle. *)
Fixpoint batches it (p : Z) (k : nat) : list (@batch A B) :=
  match k with
  | O => []
  | S k' => batch_of it p (p + batch_size it) :: batches it (p + batch_size it) k'
  end.

Lemma batches_set_pointer it q k : forall p,
  batches (set_pointer it q) p k = batches it p k.
Proof.
  induction k as [|k IH]; intros p; cbn [batches]; [reflexivity|].
  now rewrite IH.
Qed.

Lemma set_pointer_same it q : q = pointer it -> set_pointer it q = it.
Proof. intros ->. destruct it. reflexivity. Qed.

Lemma calls_advance k : forall w it,
  sound it -> 0 <= batch_size it ->
  pointer it + Z.of_nat k * batch_size it <= num_examples it ->
  calls k w it
  = Ok (batches it (pointer it) k,
        set_pointer it (pointer it + Z.of_nat k * batch_size it), w).
Proof.
  induction k as [|k IH]; intros w it Hs Hb Hp; cbn [Iterator.calls batches].
  - rewrite set_pointer_same by lia. reflexivity.
  - assert (Hk : 0 <= Z.of_nat k * batch_size it)
      by (apply Z.mul_nonneg_nonneg; lia).
    rewrite Nat2Z.inj_succ, Z.mul_succ_l in *.
    rewrite next_batch_advance by (try assumption; lia). cbn [bind].
    rewrite IH; cbn [set_pointer pointer batch_size num_examples];
      try assumption; try lia.
    cbn [bind]. rewrite batches_set_pointer.
    unfold set_pointer. cbn [x y label_off batch_size num_examples num_batches pointer].
    replace (pointer it + batch_size it + Z.of_nat k * batch_size it)
      with (pointer it + (Z.of_nat k * batch_size it + batch_size it)) by lia.
    reflexivity.
Qed.

Lemma rows_from_app {T : Type} (l : list T) p b c :
  0 <= p -> 0 <= b -> 0 <= c ->
  rows_from l p b ++ rows_from l (p + b) c = rows_from l p (b + c).
Proof.
  intros Hp Hb Hc. unfold rows_from.
  rewrite !Z2Nat.inj_add by lia.
  rewrite (Nat.add_comm (Z.to_nat p)), <- skipn_skipn.
  generalize (skipn (Z.to_nat p) l) as t.
  induction (Z.to_nat b) as [|n IH]; intros t; [reflexivity|].
  destruct t as [|a t]; cbn [Nat.add firstn skipn app].
  - now rewrite firstn_nil.
  - now rewrite IH.
Qed.

Definition label_rows (o : @batch A B) : list B :=
  match labels o with Some ys => ys | None => [] end.

(** Together the batches are the rows they run over, in order. *)
Lemma batches_cover it k : forall p,
  sound it -> 0 <= p -> 0 <= batch_size it ->
  p + Z.of_nat k * batch_size it <= num_examples it ->
  concat (map features (batches it p k))
  = rows_from (x it) p (Z.of_nat k * batch_size it)
  /\ (forall ys, y it = Some ys ->
      concat (map label_rows (batches it p k))
      = rows_from ys p (Z.of_nat k * batch_size it))
  /\ Forall (fun o => has_rows o (batch_size it)) (batches it p k).
Proof.
  induction k as [|k IH]; intros p Hs Hp Hb Hle; cbn [batches map concat].
  - split; [reflexivity|]. split; [intros ys _; reflexivity|constructor].
  - assert (Hk : 0 <= Z.of_nat k * batch_size it)
      by (apply Z.mul_nonneg_nonneg; lia).
    rewrite Nat2Z.inj_succ, Z.mul_succ_l in *.
    destruct (IH (p + batch_size it) Hs) as (IHx & IHy & IHr); try lia.
    destruct (batch_of_rows it p (batch_size it) Hs) as (Hf & Hl & Hr);
      try assumption; try lia.
    rewrite (Z.add_comm (Z.of_nat k * batch_size it)).
    split; [|split].
    + rewrite Hf, IHx. apply rows_from_app; lia.
    + intros ys Hy. rewrite (IHy ys Hy).
      unfold label_rows at 1. rewrite Hl, Hy. cbn [option_map].
      apply rows_from_app; lia.
    + constructor; assumption.
Qed.

Lemma rows_from_all {T : Type} (l : list T) : rows_from l 0 (Py.len l) = l.
Proof.
  unfold rows_from, Py.len. rewrite Nat2Z.id. cbn [Z.to_nat skipn].
  apply firstn_all.
Qed.

(** The two cases of a call in a sound, ranged state. *)
Lemma next_batch_cases w it :
  shuffle_permutes -> sound it -> ranged it ->
  exists out it' w',
    next_batch w it = Ok (out, it', w')
    /\ has_rows out (batch_size it)
    /\ (pointer it + batch_size it <= num_examples it ->
        w' = w /\ x it' = x it /\ y it' = y it
        /\ pointer it' = pointer it + batch_size it
        /\ features out = rows_from (x it) (pointer it) (batch_size it)
        /\ labels out
           = option_map (fun ys => rows_from ys (pointer it) (batch_size it)) (y it))
    /\ (num_examples it < pointer it + batch_size it ->
        reshuffled w it it' w'
        /\ shuffles w' = S (shuffles w)
        /\ pointer it' = batch_size it
        /\ features out = firstn (Z.to_nat (batch_size it)) (x it')
        /\ labels out = option_map (firstn (Z.to_nat (batch_size it))) (y it')).
Proof.
  intros Hsh Hs [Hb Hr].
  destruct (Z.le_gt_cases (pointer it + batch_size it) (num_examples it)) as [Hp|Hp].
  - rewrite (next_batch_advance w it Hs Hp).
    destruct (batch_of_rows it (pointer it) (batch_size it) Hs) as (Hf & Hl & Hrows);
      try lia.
    eexists _, _, _. split; [reflexivity|]. split; [exact Hrows|].
    split; [|lia]. intros _. repeat split; assumption.
  - destruct (next_batch_reshuffle w it Hsh Hs Hp) as (it' & w' & -> & Hre & Hs').
    destruct (reshuffled_config _ _ _ _ Hre) as [(Hb' & Hn' & _) Hptr].
    destruct (batch_of_rows it' 0 (batch_size it) Hs') as (Hf & Hl & Hrows);
      try lia.
    cbn [Z.add] in Hf, Hl, Hrows.
    eexists _, _, _. split; [reflexivity|]. split; [exact Hrows|].
    split; [lia|]. intros _.
    split; [exact Hre|]. split.
    + destruct Hre as (perm & E & _).
      pose proof (shuffle_world w (Py.arange (num_examples it))) as Hw.
      rewrite E in Hw. exact Hw.
    + repeat split; assumption.
Qed.

Lemma row_counts (os : list (@batch A B)) n :
  Forall (fun o => has_rows o n) os ->
  map (fun o => Py.len (features o)) os = repeat n (length os).
Proof.
  induction 1 as [|o os [Ho _] _ IH]; cbn [map length repeat]; [reflexivity|].
  now rewrite Ho, IH.
Qed.

Lemma init_ranged x0 y0 b lo it0 :
  __init__ x0 y0 b lo = Ok it0 -> 1 <= b ->
  ranged it0 /\ batch_size it0 = b /\ num_examples it0 = Py.len x0
  /\ num_batches it0 = Py.len x0 / b /\ pointer it0 = 0.
Proof.
  intros H Hb. apply init_inv in H. destruct H as (_ & Hle & ->).
  pose proof (PyFacts.len_nonneg x0).
  unfold ranged. cbn [batch_size num_examples num_batches pointer].
  repeat split; lia.
Qed.

(** *** The contract of [next_batch] *)

(** C1, amended.  Take an iterator constructed with
    [1 <= batch_size <= num_examples] (and, with labels on, a label array
    with as many rows as the feature array).  After any number of calls,
    the next call to [next_batch] returns exactly [batch_size] rows.  If
    the advanced cursor does not exceed [num_examples], they are the rows
    [pointer], ..., [pointer + batch_size - 1] of the stored arrays, and
    nothing but the cursor changes.  Otherwise one permutation is drawn,
    both arrays are indexed by it, the first [batch_size] rows of the
    reshuffled arrays are returned and the cursor equals [batch_size].
    For 100 rows and a batch size of 30, four calls return 30, 30, 30 and
    30 rows; the first three draw nothing, the fourth reshuffles once and
    leaves the cursor at 30. *)
Theorem next_batch_contract x0 y0 b lo it0 :
  shuffle_permutes ->
  __init__ x0 y0 b lo = Ok it0 ->
  1 <= b ->
  (lo = false -> length y0 = length x0) ->
  (forall w0 k, exists outs it w,
      calls k w0 it0 = Ok (outs, it, w)
      /\ exists out it' w',
           next_batch w it = Ok (out, it', w')
           /\ has_rows out b
           /\ (pointer it + b <= Py.len x0 ->
               w' = w /\ x it' = x it /\ y it' = y it
               /\ pointer it' = pointer it + b
               /\ features out = rows_from (x it) (pointer it) b
               /\ labels out
                  = option_map (fun ys => rows_from ys (pointer it) b) (y it))
           /\ (Py.len x0 < pointer it + b ->
               reshuffled w it it' w'
               /\ shuffles w' = S (shuffles w)
               /\ pointer it' = b
               /\ features out = firstn (Z.to_nat b) (x it')
               /\ labels out = option_map (firstn (Z.to_nat b)) (y it')))
  /\ (Py.len x0 = 100 -> b = 30 -> forall w0,
      exists outs3 it3 out4 it4 w4,
        calls 3 w0 it0 = Ok (outs3, it3, w0)
        /\ next_batch w0 it3 = Ok (out4, it4, w4)
        /\ calls 4 w0 it0 = Ok (outs3 ++ [out4], it4, w4)
        /\ map (fun o => Py.len (features o)) (outs3 ++ [out4]) = [30; 30; 30; 30]
        /\ reshuffled w0 it3 it4 w4
        /\ shuffles w4 = S (shuffles w0)
        /\ pointer it4 = 30).
Proof.
  intros Hsh Hinit Hb Hlen.
  pose proof (init_sound _ _ _ _ _ Hinit Hlen) as Hs0.
  destruct (init_ranged _ _ _ _ _ Hinit Hb) as (Hr0 & Hb0 & Hn0 & _ & Hp0).
  split.
  - intros w0 k.
    destruct (calls_defined k w0 it0 Hsh Hs0)
      as (outs & it & w & Hc & Hs & (Hbs & Hne & _) & _ & Hr).
    destruct (Hr Hr0) as [Hr' _].
    exists outs, it, w. split; [exact Hc|].
    destruct (next_batch_cases w it Hsh Hs Hr') as (out & it' & w' & H).
    exists out, it', w'. now rewrite Hbs, Hne, Hb0, Hn0 in H.
  - intros H100 H30 w0. rewrite H30 in *. clear H30.
    assert (H3 : calls 3 w0 it0
                 = Ok (batches it0 0 3, set_pointer it0 90, w0)).
    { rewrite (calls_advance 3 w0 it0 Hs0); rewrite ?Hb0, ?Hn0, ?Hp0; try lia.
      reflexivity. }
    set (it3 := set_pointer it0 90) in *.
    assert (Hs3 : sound it3) by exact Hs0.
    assert (Hr3 : ranged it3).
    { unfold ranged, it3. cbn [set_pointer batch_size num_examples pointer]. lia. }
    destruct (next_batch_cases w0 it3 Hsh Hs3 Hr3)
      as (out4 & it4 & w4 & H4 & Hrows & _ & Hre).
    destruct Hre as (Hre & Hsf & Hptr & _).
    { unfold it3. cbn [set_pointer batch_size num_examples pointer]. lia. }
    exists (batches it0 0 3), it3, out4, it4, w4.
    split; [exact H3|]. split; [exact H4|]. split; [|split].
    + change (calls 4 w0 it0) with (calls (3 + 1) w0 it0).
      rewrite (calls_app 3 1 w0 it0), H3. cbn [bind Iterator.calls].
      rewrite H4. reflexivity.
    + destruct (batches_cover it0 3 0 Hs0) as (_ & _ & Hf); try lia.
      rewrite (row_counts _ 30).
      * rewrite length_app. reflexivity.
      * apply Forall_app. split; [now rewrite Hb0 in Hf|].
        constructor; [|constructor]. unfold it3 in Hrows.
        cbn [set_pointer batch_size] in Hrows. now rewrite Hb0 in Hrows.
    + split; [exact Hre|]. split; [exact Hsf|].
      unfold it3 in Hptr. cbn [set_pointer batch_size] in Hptr. lia.
Qed.

(** *** The contract of [iterate] *)

(** C5, amended.  On an iterator constructed with [1 <= batch_size] (and
    matching label rows), in whatever state earlier calls left it, one
    call to [iterate] yields exactly [num_examples // batch_size] batches,
    the results of that many successive [next_batch] calls, each of
    [batch_size] rows.  On a fresh iterator over 100 rows with a batch
    size of 25 it yields 4 batches of 25 rows which, put end to end, are
    the whole array in order; nothing is reshuffled. *)
Theorem iterate_contract x0 y0 b lo it0 :
  shuffle_permutes ->
  __init__ x0 y0 b lo = Ok it0 ->
  1 <= b ->
  (lo = false -> length y0 = length x0) ->
  (forall w0 k, exists outs0 it w,
      calls k w0 it0 = Ok (outs0, it, w)
      /\ exists outs it' w',
           iterate w it = Ok (outs, it', w')
           /\ Z.of_nat (length outs) = Py.len x0 / b
           /\ calls (length outs) w it = Ok (outs, it', w')
           /\ Forall (fun o => has_rows o b) outs)
  /\ (Py.len x0 = 100 -> b = 25 -> forall w0,
      exists outs it',
        iterate w0 it0 = Ok (outs, it', w0)
        /\ length outs = 4%nat
        /\ Forall (fun o => has_rows o 25) outs
        /\ concat (map features outs) = x0
        /\ (lo = false -> concat (map label_rows outs) = y0)
        /\ x it' = x0).
Proof.
  intros Hsh Hinit Hb Hlen.
  pose proof (init_sound _ _ _ _ _ Hinit Hlen) as Hs0.
  destruct (init_ranged _ _ _ _ _ Hinit Hb) as (Hr0 & Hb0 & Hn0 & Hnb0 & Hp0).
  pose proof (PyFacts.len_nonneg x0) as Hx0.
  split.
  - intros w0 k.
    destruct (calls_defined k w0 it0 Hsh Hs0)
      as (outs0 & it & w & Hc & Hs & (Hbs & Hne & Hnb & _) & _ & Hr).
    destruct (Hr Hr0) as [Hr' _].
    exists outs0, it, w. split; [exact Hc|].
    unfold Iterator.iterate.
    destruct (calls_defined (Z.to_nat (num_batches it)) w it Hsh Hs)
      as (outs & it' & w' & Hc' & _ & _ & Hl & Hr2).
    exists outs, it', w'. split; [exact Hc'|].
    rewrite Hl. split; [|split; [exact Hc'|]].
    + rewrite Hnb, Hnb0, Z2Nat.id; [reflexivity|].
      apply Z.div_pos; lia.
    + destruct (Hr2 Hr') as [_ Hf]. now rewrite Hbs, Hb0 in Hf.
  - intros H100 H25 w0. rewrite H25 in *. clear H25.
    unfold Iterator.iterate.
    assert (Hk : Z.to_nat (num_batches it0) = 4%nat).
    { rewrite Hnb0, H100. reflexivity. }
    rewrite Hk.
    rewrite (calls_advance 4 w0 it0 Hs0); rewrite ?Hb0, ?Hn0, ?Hp0; try lia.
    destruct (batches_cover it0 4 0 Hs0) as (Hf & Hy & Hrows);
      rewrite ?Hb0, ?Hn0; try lia.
    apply init_inv in Hinit. destruct Hinit as (_ & _ & Hit0).
    assert (Hx : x it0 = x0) by (subst it0; reflexivity).
    assert (Hfull : Z.of_nat 4 * 25 = Py.len x0) by lia.
    rewrite Hb0 in Hf, Hy, Hrows. rewrite Hfull in Hf, Hy. rewrite Hx in Hf.
    eexists _, _. split; [reflexivity|].
    split; [reflexivity|]. split; [exact Hrows|].
    split; [rewrite Hf; apply rows_from_all|].
    split; [|exact Hx].
    intros Hlo. specialize (Hlen Hlo).
    rewrite (Hy y0).
    + unfold Py.len. rewrite <- Hlen. apply rows_from_all.
    + subst it0 lo. reflexivity.
Qed.

(** *** The contract of the constructor *)

(** C8, amended.  For a batch size other than zero, construction
    succeeds if and only if [batch_size <= num_examples]; when
    [batch_size > num_examples] it raises [AssertionError] and no iterator
    is produced. *)
Theorem init_succeeds_iff (x0 : list A) (y0 : list B) b lo :
  b <> 0 ->
  ((exists it0, __init__ x0 y0 b lo = Ok it0) <-> b <= Py.len x0)
  /\ (Py.len x0 < b -> __init__ x0 y0 b lo = Raise AssertionError).
Proof.
  intros Hb. unfold __init__, Py.floordiv.
  destruct (Z.eqb_spec b 0) as [?|_]; [contradiction|]. cbn [bind].
  destruct (Z.leb_spec b (Py.len x0)) as [Hle|Hgt].
  - split; [|lia]. split; [intros _; exact Hle|eauto].
  - split; [|reflexivity]. split; [intros [it0 H]; discriminate|lia].
Qed.

(** *** Feature/label pairing *)

(** Every position that holds both a feature row and a label row holds
    a pair of the original arrays [x0], [y0]. *)
Definition paired (x0 : list A) (y0 : list B) (xs : list A) (ys : list B) : Prop :=
  forall k a c,
    nth_error xs k = Some a -> nth_error ys k = Some c ->
    exists j, nth_error x0 j = Some a /\ nth_error y0 j = Some c.

(** Both stored arrays are the original ones indexed by one and the
    same list of positions. *)
Definition jointly_indexed (x0 : list A) (y0 : list B) it : Prop :=
  exists sigma ys,
    y it = Some ys
    /\ Py.take x0 sigma = Ok (x it)
    /\ Py.take y0 sigma = Ok ys.

(** Before the first reshuffle the arrays are the original ones, and the
    cursor has the sign of the batch size. *)
Definition untouched (x0 : list A) (y0 : list B) it : Prop :=
  x it = x0 /\ y it = Some y0
  /\ (0 <= batch_size it -> 0 <= pointer it)
  /\ (batch_size it < 0 -> pointer it <= 0).

Definition pairing_inv (x0 : list A) (y0 : list B) it : Prop :=
  label_off it = false
  /\ (untouched x0 y0 it \/ jointly_indexed x0 y0 it).

Definition pair_of (x0 : list A) (y0 : list B) (o : @batch A B) : Prop :=
  exists xs ys, o = Pair xs ys /\ paired x0 y0 xs ys.

Lemma paired_indexed x0 y0 sigma xs ys start stop :
  Py.take x0 sigma = Ok xs -> Py.take y0 sigma = Ok ys ->
  paired x0 y0 (Py.slice xs start stop) (Py.slice ys start stop).
Proof.
  intros Hx Hy k a c Ha Hc.
  apply PyFacts.slice_nth_error in Ha. destruct Ha as [Ha _].
  apply PyFacts.slice_nth_error in Hc. destruct Hc as [Hc _].
  assert (Hl : Py.len ys = Py.len xs).
  { unfold Py.len.
    now rewrite (PyFacts.take_length _ _ _ Hx), (PyFacts.take_length _ _ _ Hy). }
  rewrite Hl in Hc.
  destruct (PyFacts.take_nth_error _ _ _ _ _ Hx Ha) as (j & Hj & Hxj).
  destruct (PyFacts.take_nth_error _ _ _ _ _ Hy Hc) as (j' & Hj' & Hyj).
  rewrite Hj in Hj'. injection Hj' as <-. eauto.
Qed.

(** Slices of the original arrays between the same bounds pair up, as
    long as the lower bound is not negative or the bounds cross. *)
Lemma paired_original x0 y0 start stop :
  0 <= start \/ stop <= start ->
  paired x0 y0 (Py.slice x0 start stop) (Py.slice y0 start stop).
Proof.
  intros Hb k a c Ha Hc.
  apply PyFacts.slice_nth_error in Ha. destruct Ha as [Ha Hlt].
  apply PyFacts.slice_nth_error in Hc. destruct Hc as [Hc _].
  destruct (Z.le_gt_cases 0 start) as [Hs|Hs].
  - rewrite (PyFacts.bound_at _ _ _ _ Hs Ha) in Ha.
    rewrite (PyFacts.bound_at _ _ _ _ Hs Hc) in Hc. eauto.
  - exfalso. unfold Py.bound in Hlt.
    destruct (Z.ltb_spec start 0), (Z.ltb_spec stop 0); lia.
Qed.

(** What a successful call did, for an iterator with labels. *)
Lemma next_batch_inv w it ys out it' w' :
  label_off it = false -> y it = Some ys ->
  next_batch w it = Ok (out, it', w') ->
  same_config it it'
  /\ ((pointer it + batch_size it <= num_examples it
       /\ out = Pair (Py.slice (x it) (pointer it) (pointer it + batch_size it))
                     (Py.slice ys (pointer it) (pointer it + batch_size it))
       /\ x it' = x it /\ y it' = y it
       /\ pointer it' = pointer it + batch_size it
       /\ w' = w)
      \/ (num_examples it < pointer it + batch_size it
          /\ exists perm x' y',
               np_random_shuffle w (Py.arange (num_examples it)) = (w', perm)
               /\ Py.take (x it) perm = Ok x'
               /\ Py.take ys perm = Ok y'
               /\ out = Pair (Py.slice x' 0 (batch_size it))
                             (Py.slice y' 0 (batch_size it))
               /\ x it' = x' /\ y it' = Some y'
               /\ pointer it' = batch_size it)).
Proof.
  intros Hl Hy.
  unfold Iterator.next_batch, reshuffle, get_y, set_pointer, set_x, set_y.
  cbn [pointer num_examples num_batches label_off x y batch_size].
  rewrite Hl, Hy. cbn [negb].
  destruct (Z.ltb_spec (num_examples it) (pointer it + batch_size it)) as [Hp|Hp].
  - destruct (np_random_shuffle w (Py.arange (num_examples it))) as [w1 perm].
    destruct (Py.take (x it) perm) as [x'|e] eqn:Ex; cbn [bind]; [|discriminate].
    cbn [pointer num_examples num_batches label_off x y batch_size negb bind].
    destruct (Py.take ys perm) as [y'|e] eqn:Ey; cbn [bind]; [|discriminate].
    cbn [pointer num_examples num_batches label_off x y batch_size negb bind].
    intros H. injection H as <- <- <-.
    cbn [pointer num_examples num_batches label_off x y batch_size].
    split; [repeat split; auto|]. right. split; [exact Hp|].
    exists perm, x', y'. repeat split; assumption.
  - cbn [bind pointer num_examples num_batches label_off x y batch_size negb].
    intros H. injection H as <- <- <-.
    cbn [pointer num_examples num_batches label_off x y batch_size].
    split; [repeat split; auto|]. left. repeat split; auto.
Qed.

Lemma next_batch_pairs x0 y0 w it out it' w' :
  pairing_inv x0 y0 it ->
  next_batch w it = Ok (out, it', w') ->
  pairing_inv x0 y0 it' /\ pair_of x0 y0 out.
Proof.
  intros [Hl Hinv] H.
  assert (Hys : exists ys, y it = Some ys).
  { destruct Hinv as [(_ & Hy & _)|(s & ys & Hy & _)]; eauto. }
  destruct Hys as [ys Hy].
  destruct (next_batch_inv w it ys out it' w' Hl Hy H)
    as [(Hb' & _ & _ & Hl') Hcase].
  unfold pairing_inv. rewrite Hl', Hl. split; [split; [reflexivity|]|].
  - destruct Hcase as [(_ & _ & Hx' & Hy' & Hp' & _)
                      |(_ & perm & x' & y' & _ & Hx & Hys & _ & Hx' & Hy' & _)].
    + destruct Hinv as [(Hx0 & Hy0 & Hpos & Hneg)|(s & ys0 & Hy0 & Hsx & Hsy)].
      * left. unfold untouched. rewrite Hx', Hy', Hp', Hb'.
        repeat split; auto; lia.
      * right. exists s, ys0. rewrite Hx', Hy'. auto.
    + right. destruct Hinv as [(Hx0 & Hy0 & _)|(s & ys0 & Hy0 & Hsx & Hsy)].
      * exists perm, y'. rewrite Hx', Hy'. rewrite Hy in Hy0.
        injection Hy0 as ->. rewrite Hx0 in Hx. auto.
      * rewrite Hy in Hy0. injection Hy0 as <-.
        destruct (PyFacts.take_take _ _ _ _ _ Hsx Hx) as (s1 & Hs1 & Hx1).
        destruct (PyFacts.take_take _ _ _ _ _ Hsy Hys) as (s2 & Hs2 & Hy2).
        rewrite Hs1 in Hs2. injection Hs2 as <-.
        exists s1, y'. rewrite Hx', Hy'. auto.
  - destruct Hcase as [(_ & -> & _)
                      |(_ & perm & x' & y' & _ & Hx & Hys & -> & _)].
    + eexists _, _. split; [reflexivity|].
      destruct Hinv as [(Hx0 & Hy0 & Hpos & Hneg)|(s & ys0 & Hy0 & Hsx & Hsy)].
      * rewrite Hy in Hy0. injection Hy0 as ->. rewrite Hx0.
        apply paired_original. lia.
      * rewrite Hy in Hy0. injection Hy0 as <-.
        eapply paired_indexed; eassumption.
    + eexists _, _. split; [reflexivity|].
      destruct Hinv as [(Hx0 & Hy0 & _)|(s & ys0 & Hy0 & Hsx & Hsy)].
      * rewrite Hy in Hy0. injection Hy0 as ->. rewrite Hx0 in Hx.
        eapply paired_indexed; eassumption.
      * rewrite Hy in Hy0. injection Hy0 as <-.
        destruct (PyFacts.take_take _ _ _ _ _ Hsx Hx) as (s1 & Hs1 & Hx1).
        destruct (PyFacts.take_take _ _ _ _ _ Hsy Hys) as (s2 & Hs2 & Hy2).
        rewrite Hs1 in Hs2. injection Hs2 as <-.
        eapply paired_indexed; eassumption.
Qed.

Lemma calls_pair x0 y0 k : forall w it outs it' w',
  pairing_inv x0 y0 it ->
  calls k w it = Ok (outs, it', w') ->
  pairing_inv x0 y0 it' /\ Forall (pair_of x0 y0) outs.
Proof.
  induction k as [|k IH]; intros w it outs it' w' Hinv; cbn [Iterator.calls].
  - intros H. injection H as <- <- <-. split; [exact Hinv|constructor].
  - destruct (next_batch w it) as [[[o it1] w1]|e] eqn:E1; cbn [bind]; [|discriminate].
    destruct (calls k w1 it1) as [[[os it2] w2]|e] eqn:E2; cbn [bind]; [|discriminate].
    intros H. injection H as <- <- <-.
    destruct (next_batch_pairs _ _ _ _ _ _ _ Hinv E1) as [Hinv1 Ho].
    destruct (IH _ _ _ _ _ Hinv1 E2) as [Hinv2 Hos].
    split; [exact Hinv2|]. now constructor.
Qed.

(** With labels of the length of the features, every batch returned has
    as many label rows as feature rows. *)
Definition balanced (o : @batch A B) : Prop :=
  match o with
  | Pair xs ys => length xs = length ys
  | Single _ => True
  end.

Lemma batch_of_balanced it start stop :
  sound it -> balanced (batch_of it start stop).
Proof.
  intros [_ Hy]. unfold batch_of.
  destruct (y it) as [ys|]; cbn [balanced]; [|exact I].
  destruct Hy as [_ Hlen]. now apply PyFacts.slice_length.
Qed.

Lemma calls_balanced k : forall w it,
  shuffle_permutes -> sound it ->
  exists outs it' w',
    calls k w it = Ok (outs, it', w') /\ Forall balanced outs.
Proof.
  induction k as [|k IH]; intros w it Hsh Hs; cbn [Iterator.calls].
  - exists [], it, w. split; [reflexivity|constructor].
  - assert (Hstep : exists o it1 w1,
              next_batch w it = Ok (o, it1, w1) /\ sound it1 /\ balanced o).
    { destruct (Z.le_gt_cases (pointer it + batch_size it) (num_examples it)) as [Hp|Hp].
      - rewrite (next_batch_advance w it Hs Hp). eexists _, _, _.
        split; [reflexivity|]. split; [exact Hs|]. now apply batch_of_balanced.
      - destruct (next_batch_reshuffle w it Hsh Hs Hp) as (it1 & w1 & -> & _ & Hs1).
        eexists _, _, _. split; [reflexivity|]. split; [exact Hs1|].
        now apply batch_of_balanced. }
    destruct Hstep as (o & it1 & w1 & -> & Hs1 & Ho). cbn [bind].
    destruct (IH w1 it1 Hsh Hs1) as (os & it2 & w2 & -> & Hos). cbn [bind].
    eexists _, _, _. split; [reflexivity|]. now constructor.
Qed.

(** C3.  Take an iterator constructed with labels.  Whatever sequence of
    [next_batch] calls succeeds, every batch returned is a pair of slices
    in which the label at each position is the original label of the
    feature row at that position, and the stored arrays are the original
    ones, untouched or both indexed by one shared list of positions.  When
    the label array has as many rows as the feature array, no call raises
    and every batch has as many label rows as feature rows. *)
Theorem next_batch_pairing x0 y0 b it0 :
  __init__ x0 y0 b false = Ok it0 ->
  (forall w0 k outs it w,
      calls k w0 it0 = Ok (outs, it, w) ->
      Forall (pair_of x0 y0) outs
      /\ ((x it = x0 /\ y it = Some y0) \/ jointly_indexed x0 y0 it))
  /\ (shuffle_permutes -> length y0 = length x0 ->
      forall w0 k, exists outs it w,
        calls k w0 it0 = Ok (outs, it, w)
        /\ Forall (pair_of x0 y0) outs
        /\ Forall balanced outs).
Proof.
  intros Hinit.
  assert (Hinv0 : pairing_inv x0 y0 it0).
  { apply init_inv in Hinit. destruct Hinit as (_ & _ & ->).
    split; [reflexivity|]. left. unfold untouched.
    cbn [x y pointer batch_size negb]. repeat split; lia. }
  split.
  - intros w0 k outs it w H.
    destruct (calls_pair _ _ _ _ _ _ _ _ Hinv0 H) as [[_ Hinv] Hos].
    split; [exact Hos|].
    destruct Hinv as [(Hx & Hy & _)|Hj]; auto.
  - intros Hsh Hlen w0 k.
    assert (Hs0 : sound it0) by (eapply init_sound; eauto).
    destruct (calls_balanced k w0 it0 Hsh Hs0) as (outs & it & w & H & Hbal).
    exists outs, it, w. split; [exact H|]. split; [|exact Hbal].
    now destruct (calls_pair _ _ _ _ _ _ _ _ Hinv0 H).
Qed.
End WithRandom.

(** *** Concrete runs *)

(** A generator whose shuffle reverses its argument. *)
Definition reversing (g : unit) (a : list nat) : unit * list nat := (g, rev a).

Definition fresh : world unit := World tt 0.

Lemma reversing_permutes : shuffle_permutes reversing.
Proof. intros g a. apply Permutation_sym, Permutation_rev. Qed.

Lemma next_batch_contract_witness :
  exists outs it w,
    calls reversing 1 fresh (Build [1; 2; 3]%nat true (@None (list nat)) 2 3 1 0)
    = Ok (outs, it, w)
    /\ exists out it' w',
         next_batch reversing w it = Ok (out, it', w') /\ has_rows out 2.
Proof.
  destruct (next_batch_contract reversing [1; 2; 3]%nat (@nil nat) 2 true _
              reversing_permutes eq_refl ltac:(lia) ltac:(discriminate))
    as [H _].
  destruct (H fresh 1%nat) as (outs & it & w & Hc & out & it' & w' & Hn & Hr & _).
  exists outs, it, w. split; [exact Hc|]. exists out, it', w'. split; assumption.
Defined.

(** C1, as the claim states it, fails for a negative batch size: the
    constructor accepts it, and the first call returns the rows up to the
    second last one. *)
Lemma next_batch_negative_batch_size :
  exists it0 it1,
    __init__ [0; 1; 2; 3; 4]%nat (@nil nat) (-2) true = Ok it0
    /\ batch_size it0 <= num_examples it0
    /\ next_batch reversing fresh it0 = Ok (Single [0; 1; 2]%nat, it1, fresh)
    /\ Py.len [0; 1; 2]%nat <> batch_size it0.
Proof.
  eexists _, _. split; [reflexivity|].
  split; [cbn; lia|]. split; [reflexivity|]. cbn. lia.
Qed.

Lemma next_batch_pairing_witness :
  exists outs it w,
    calls reversing 3 fresh
      (Build [10; 20; 30]%nat false (Some [1; 2; 3]%nat) 2 3 1 0)
    = Ok (outs, it, w)
    /\ Forall (pair_of [10; 20; 30]%nat [1; 2; 3]%nat) outs
    /\ Forall balanced outs.
Proof.
  destruct (next_batch_pairing reversing [10; 20; 30]%nat [1; 2; 3]%nat 2 _ eq_refl)
    as [_ H].
  exact (H reversing_permutes eq_refl fresh 3%nat).
Defined.

Lemma iterate_contract_witness :
  exists outs it' w',
    iterate reversing fresh (Build [1; 2; 3]%nat true (@None (list nat)) 2 3 1 0)
    = Ok (outs, it', w')
    /\ Z.of_nat (length outs) = 3 / 2.
Proof.
  destruct (iterate_contract reversing [1; 2; 3]%nat (@nil nat) 2 true _
              reversing_permutes eq_refl ltac:(lia) ltac:(discriminate))
    as [H _].
  destruct (H fresh 0%nat) as (outs0 & it & w & Hc & outs & it' & w' & Hi & Hl & _).
  injection Hc as <- <- <-.
  exists outs, it', w'. split; assumption.
Defined.

(** C5, as the claim states it, fails for a negative batch size:
    [range] of a negative count is empty, so nothing is yielded, while
    [num_examples // batch_size] is [-3]. *)
Lemma iterate_negative_batch_size :
  exists it0,
    __init__ [0; 1; 2; 3; 4]%nat (@nil nat) (-2) true = Ok it0
    /\ iterate reversing fresh it0 = Ok ([], it0, fresh)
    /\ num_examples it0 / batch_size it0 = -3.
Proof. eexists. repeat split. Qed.

Lemma init_succeeds_iff_witness :
  (exists it0, __init__ [1; 2; 3]%nat (@nil nat) 2 true = Ok it0) <-> 2 <= 3.
Proof.
  exact (proj1 (init_succeeds_iff [1; 2; 3]%nat (@nil nat) 2 true ltac:(lia))).
Defined.

(** C8, as the claim states it, fails for a batch size of zero:
    [num_examples // batch_size] raises before the assertion is reached. *)
Lemma init_zero_batch_size :
  0 <= Py.len [1; 2; 3]%nat
  /\ __init__ [1; 2; 3]%nat (@nil nat) 0 true = Raise ZeroDivisionError.
Proof. split; [cbn; lia|reflexivity]. Qed.
End IteratorFacts.

(** ** The model *)

Module SRGANFacts.
Import SRGAN.
Local Open Scope R_scope.

(** C7.  The generator returns its input unchanged. *)
Theorem generator_identity (T : Type) (z : T) (reuse : option bool) :
  generator z reuse = z.
Proof. reflexivity. Qed.

(** The mean squared deviation of [pred] from [data], as the
    specification words the losses. *)
Definition mean_squared_deviation (pred data : tensor) : R :=
  reduce_sum_all (map (fun v => v * v) (sub pred data)) / INR (List.length pred).

Definition sum_of_squares (t : tensor) : R :=
  reduce_sum_all (map (fun v => v * v) t).

(** What [mse_loss] computes: the Euclidean norm of the deviation, over
    the batch size. *)
Lemma mse_loss_norm batch_size pred data :
  mse_loss batch_size pred data
  = sqrt (sum_of_squares (sub pred data)) / batch_size.
Proof.
  unfold mse_loss, l2_loss, sum_of_squares. do 2 f_equal. field.
Qed.

(** A discriminator that scores every input one half. *)
Definition scores_half (_ : unit) (_ : option bool) : tensor := [1 / 2].

Lemma sqrt_quarter : sqrt (1 / 4) = 1 / 2.
Proof.
  replace (1 / 4) with ((1 / 2) * (1 / 2)) by field.
  apply sqrt_square. lra.
Qed.

(** C6 at one score of one half and a batch size of one: every loss is
    one half, the mean squared deviation from either target is one
    quarter. *)
Theorem losses_at_half :
  build_began 1 unit scores_half tt tt = Losses (1 / 2) (1 / 2) (1 / 2) (1 / 2)
  /\ mean_squared_deviation [1 / 2] (ones_like [1 / 2]) = 1 / 4
  /\ mean_squared_deviation [1 / 2] (zeros_like [1 / 2]) = 1 / 4.
Proof.
  assert (H1 : mse_loss 1 [1 / 2] [1] = 1 / 2).
  { rewrite mse_loss_norm. unfold sum_of_squares, reduce_sum_all. cbn.
    replace ((1 / 2 - 1) * (1 / 2 - 1) + 0) with (1 / 4) by field.
    rewrite sqrt_quarter. field. }
  assert (H0 : mse_loss 1 [1 / 2] [0] = 1 / 2).
  { rewrite mse_loss_norm. unfold sum_of_squares, reduce_sum_all. cbn.
    replace ((1 / 2 - 0) * (1 / 2 - 0) + 0) with (1 / 4) by field.
    rewrite sqrt_quarter. field. }
  split; [|split].
  - unfold build_began, generator, scores_half, reduce_sum, ones_like, zeros_like.
    cbn [map]. rewrite H1, H0. f_equal. field.
  - unfold mean_squared_deviation, reduce_sum_all. cbn. field.
  - unfold mean_squared_deviation, reduce_sum_all. cbn. field.
Qed.
End SRGANFacts.


(** ** More on the loader *)

Module LoaderFacts.
Import CelebA CelebAFacts.



(** *** Chunks tile the array *)





(** *** What is printed *)





(** X5.  With the default size and a store that is not empty, every
    offset that is not negative returns the whole array, normalised. *)
Theorem load_data_default_size hf faces offset :
  h5_get hf "images" = Ok faces ->
  1 <= Py.len faces ->
  0 <= offset ->
  loaded hf None offset = Ok (map (map normalize) faces).
Proof.
  intros Hget Hlen Ho.
  assert (Hn : Py.ceildiv (Py.len faces) (Py.len faces) = Ok 1).
  { unfold Py.ceildiv. destruct (Z.eqb_spec (Py.len faces) 0); [lia|].
    f_equal. rewrite Z.div_opp_l_z by (try lia; apply Z_mod_same_full).
    rewrite Z.div_same by lia. reflexivity. }
  unfold loaded, load_data. rewrite Hget, Hn.
  assert (Hz : loaded hf (Some (Py.len faces)) 0 = Ok (map (map normalize) faces)).
  { destruct (load_data_inside hf faces (Py.len faces) 0 1 Hget Hlen Hn ltac:(lia))
      as [-> _].
    unfold chunk. rewrite Z.mul_0_l, Z.sub_0_r, Z.min_id. cbn [Z.to_nat skipn].
    rewrite firstn_all2; [reflexivity|]. unfold Py.len. lia. }
  unfold loaded, load_data in Hz. rewrite Hget, Hn in Hz.
  destruct (Z.leb_spec 1 offset) as [Hw|Hw].
  - unfold Py.modulo. cbn [Z.eqb]. rewrite Z.mod_1_r.
    cbn [Z.leb Z.compare] in Hz. cbn [Z.eqb Z.sub Z.opp Z.add Z.pos_sub] in *.
    exact Hz.
  - assert (offset = 0) by lia. subst offset. exact Hz.
Qed.

Lemma load_data_default_size_witness :
  loaded (write_cache [[x01]; [x02]; [x03]]) None 5
  = Ok (map (map normalize) [[x01]; [x02]; [x03]]).
Proof.
  apply (load_data_default_size (write_cache [[x01]; [x02]; [x03]])).
  - reflexivity.
  - unfold Py.len; simpl; lia.
  - lia.
Defined.
End LoaderFacts.

(** ** The chunk count the code computes *)

Module ChunkCountFacts.
Import CelebA DoubleFacts.

(** X23.  For fewer than 2^53 stored rows and a chunk size from 1 to
    2^1074, the chunk count the code computes in double precision,
    [int(np.ceil(full_size / size))], is the exact ceiling of the quotient:
    the least [n] with [full_size <= n * size]. *)
Theorem n_chunks_double_exact full_size size :
  0 <= full_size < 2 ^ 53 ->
  1 <= size <= 2 ^ 1074 ->
  n_chunks_double full_size size = Py.ceildiv full_size size
  /\ exists n, n_chunks_double full_size size = Ok n
               /\ (n - 1) * size < full_size <= n * size.
Proof.
  intros [Hf0 Hf] [Hs0 Hs].
  assert (E : n_chunks_double full_size size = Py.ceildiv full_size size).
  { destruct (Z.eq_dec full_size 0) as [->|Hne].
    - unfold n_chunks_double, Py.ceildiv.
      destruct (Z.eqb_spec size 0); [lia|]. reflexivity.
    - destruct (Z.le_gt_cases size full_size) as [Hle|Hgt].
      + apply n_chunks_double_inside; lia.
      + rewrite n_chunks_double_oversized by lia.
        unfold Py.ceildiv. destruct (Z.eqb_spec size 0); [lia|]. f_equal.
        pose proof (Z.div_mod (- full_size) size ltac:(lia)).
        pose proof (Z.mod_pos_bound (- full_size) size ltac:(lia)). nia. }
  split; [exact E|].
  destruct (CelebAFacts.ceildiv_defined full_size size ltac:(lia)) as [n Hn].
  exists n. rewrite E. split; [exact Hn|].
  now apply CelebAFacts.ceildiv_spec.
Qed.

Lemma n_chunks_double_exact_witness :
  n_chunks_double 202599 128 = Py.ceildiv 202599 128
  /\ exists n, n_chunks_double 202599 128 = Ok n
               /\ (n - 1) * 128 < 202599 <= n * 128.
Proof.
  apply (n_chunks_double_exact 202599 128).
  - split; [lia|]. apply Z.ltb_lt. vm_compute. reflexivity.
  - split; [lia|]. apply Z.leb_le. vm_compute. reflexivity.
Defined.
End ChunkCountFacts.

(** ** More on normalisation *)

Module NormalizeFacts.
Import CelebA.
Local Open Scope Q_scope.

(** [normalize] as a function of the byte's value. *)
Definition level (z : Z) : Q := Float.half_div (inject_Z z) (255 # 1).

Lemma normalize_level b : normalize b = level (byte_value b).
Proof. reflexivity. Qed.

Lemma byte_value_range b : (0 <= byte_value b <= 255)%Z.
Proof.
  unfold byte_value. pose proof (Byte.to_N_bounded b). lia.
Qed.

Definition rising (k : nat) : bool :=
  negb (Qle_bool (level (Z.of_nat (S k))) (level (Z.of_nat k))).

Lemma rising_all : forallb rising (seq 0 255) = true.
Proof. vm_compute. reflexivity. Qed.

Lemma level_step z : (0 <= z < 255)%Z -> level z < level (z + 1).
Proof.
  intros Hz.
  assert (Hin : In (Z.to_nat z) (seq 0 255)) by (apply in_seq; lia).
  pose proof (proj1 (forallb_forall rising (seq 0 255)) rising_all _ Hin) as H.
  unfold rising in H. rewrite Nat2Z.inj_succ, Z2Nat.id in H by lia.
  unfold Z.succ in H.
  apply Qnot_le_lt. intros Hle. apply Qle_bool_iff in Hle.
  rewrite Hle in H. discriminate H.
Qed.

Lemma level_rises z d :
  (0 <= z)%Z -> (0 <= d)%Z -> (z + d < 255)%Z -> level z < level (z + d + 1).
Proof.
  intros Hz Hd. revert d Hd.
  apply (natlike_ind (fun d => (z + d < 255)%Z -> level z < level (z + d + 1))).
  - intros H. rewrite Z.add_0_r. apply level_step. lia.
  - intros d Hd IH H.
    apply Qlt_trans with (level (z + d + 1)); [apply IH; lia|].
    replace (z + Z.succ d + 1)%Z with (z + d + 1 + 1)%Z by lia.
    apply level_step. lia.
Qed.

(** X6.  Normalisation keeps the order of the 256 byte values strictly,
    so distinct bytes stay distinct in half precision. *)
Theorem normalize_increasing b1 b2 :
  (byte_value b1 < byte_value b2)%Z -> normalize b1 < normalize b2.
Proof.
  intros H. rewrite !normalize_level.
  pose proof (byte_value_range b1). pose proof (byte_value_range b2).
  replace (byte_value b2)
    with (byte_value b1 + (byte_value b2 - byte_value b1 - 1) + 1)%Z by lia.
  apply level_rises; lia.
Qed.

Lemma normalize_increasing_witness : normalize x00 < normalize xff.
Proof. apply (normalize_increasing x00 xff). reflexivity. Defined.

Definition accurate (b : byte) : bool :=
  let exact := inject_Z (byte_value b) / (255 # 1) in
  Qle_bool (Qabs (normalize b - exact)) (1 # 4096)
  && Qle_bool (Qabs (normalize b - exact)) (exact * (1 # 2048)).

Lemma accurate_all b : accurate b = true.
Proof. destruct b; vm_compute; reflexivity. Qed.

(** X7.  The normalised value of a byte [b] differs from the exact
    quotient [b / 255] by at most 2^-12, and by at most 2^-11 of that
    quotient. *)
Theorem normalize_accuracy b :
  Qabs (normalize b - inject_Z (byte_value b) / (255 # 1)) <= 1 # 4096
  /\ Qabs (normalize b - inject_Z (byte_value b) / (255 # 1))
     <= inject_Z (byte_value b) / (255 # 1) * (1 # 2048).
Proof.
  pose proof (accurate_all b) as H. unfold accurate in H. cbv zeta in H.
  apply andb_prop in H. destruct H as [H1 H2].
  split; now apply Qle_bool_iff.
Qed.

(** X8.  Every byte value is a half-precision number (and a
    single-precision one): converting the stored bytes rounds nothing. *)
Theorem uint8_to_half_exact b :
  Float.to_half (uint8_to_half b) = uint8_to_half b
  /\ Float.to_single (uint8_to_half b) = uint8_to_half b.
Proof. destruct b; vm_compute; split; reflexivity. Qed.
End NormalizeFacts.


(** ** Building the cache *)

Module BuildFacts.
Import CelebA CelebAFacts CelebABuild.

(** *** Rounding a half *)

(** Half of a difference that is not negative, rounded either way, splits
    it into two parts that differ by one at most. *)
Lemma int_round_half_centre py d :
  0 <= d ->
  0 <= int_round_half py d <= d
  /\ -1 <= int_round_half py d - (d - int_round_half py d) <= 1.
Proof.
  intros Hd.
  pose proof (Z.div_mod d 2 ltac:(lia)) as E.
  pose proof (Z.mod_pos_bound d 2 ltac:(lia)) as B.
  destruct py; unfold int_round_half.
  - destruct (Z.leb_spec 0 d); [|lia].
    pose proof (Z.div_mod (d + 1) 2 ltac:(lia)).
    pose proof (Z.mod_pos_bound (d + 1) 2 ltac:(lia)). lia.
  - unfold Float.rint_frac.
    destruct (Z.compare_spec (2 * (d mod 2)) 2); [|lia|lia].
    destruct (Z.even (d / 2)); lia.
Qed.

(** *** File names *)

Definition name_le (f g : string) : Prop := String.leb f g = true.

Lemma insert_sorted_perm f fs : Permutation (insert_sorted f fs) (f :: fs).
Proof.
  induction fs as [|g fs IH]; cbn [insert_sorted]; [reflexivity|].
  destruct (String.leb f g); [reflexivity|].
  rewrite IH. apply perm_swap.
Qed.

Lemma np_sort_perm fs : Permutation (np_sort fs) fs.
Proof.
  induction fs as [|f fs IH]; cbn [np_sort fold_right]; [reflexivity|].
  fold (np_sort fs). rewrite insert_sorted_perm. now constructor.
Qed.

Lemma np_sort_len fs : Py.len (np_sort fs) = Py.len fs.
Proof. unfold Py.len. now rewrite (Permutation_length (np_sort_perm fs)). Qed.

Lemma insert_sorted_sorted f fs :
  Sorted name_le fs -> Sorted name_le (insert_sorted f fs).
Proof.
  induction 1 as [|g fs Hs IH Hhd]; cbn [insert_sorted].
  - repeat constructor.
  - destruct (String.leb f g) eqn:E.
    + constructor; [now constructor|]. constructor. exact E.
    + constructor; [exact IH|].
      assert (Hgf : name_le g f).
      { destruct (String.leb_total f g) as [H|H]; [congruence|exact H]. }
      destruct Hhd as [|h fs' Hgh]; cbn [insert_sorted].
      * constructor. exact Hgf.
      * destruct (String.leb f h); constructor; assumption.
Qed.

Lemma np_sort_sorted fs : Sorted name_le (np_sort fs).
Proof.
  induction fs as [|f fs IH]; cbn [np_sort fold_right]; [constructor|].
  now apply insert_sorted_sorted.
Qed.

Section WithImages.
Context {pixel : Type}.
Variable py : python.
Variable imread : string -> result (@image pixel).
Variable imresize : @image pixel -> Z -> Z -> result (@image pixel).
Variable store_row : @image pixel -> result (list byte).
Variable np_zeros : Z -> Z -> result CelebA.images.

Abbreviation get_image := (@get_image pixel py imread imresize).
Abbreviation fill := (@fill pixel py imread imresize store_row).
Abbreviation celeb_a := (@celeb_a pixel py imread imresize store_row np_zeros).

(** *** The crop *)

(** X9.  When the image resized to the target width is at least as tall
    as the target height [h], [get_image] returns exactly [h] rows of it,
    taken from the middle: the rows cut above and below differ in number
    by one at most. *)
Theorem get_image_centre_crop path w h img orig_h orig_w resized :
  imread path = Ok img ->
  shape2 img = (orig_h, orig_w) ->
  orig_w <> 0 ->
  imresize img (Z.quot (orig_h * w) orig_w) w = Ok resized ->
  Py.len resized = Z.quot (orig_h * w) orig_w ->
  0 <= h <= Py.len resized ->
  exists above below,
    get_image path w h
    = Ok (firstn (Z.to_nat h) (skipn (Z.to_nat above) resized))
    /\ Py.len (firstn (Z.to_nat h) (skipn (Z.to_nat above) resized)) = h
    /\ 0 <= above /\ 0 <= below
    /\ above + h + below = Py.len resized
    /\ -1 <= above - below <= 1.
Proof.
  intros Hread Hshape Hw Hres Hlen Hh.
  destruct (int_round_half_centre py (Py.len resized - h) ltac:(lia)) as [Hm Hc].
  exists (int_round_half py (Py.len resized - h)),
         (Py.len resized - h - int_round_half py (Py.len resized - h)).
  split; [|split; [apply PyFacts.len_run; lia|lia]].
  unfold CelebABuild.get_image. rewrite Hread. cbn [bind]. rewrite Hshape.
  unfold int_truediv. destruct (Z.eqb_spec orig_w 0); [contradiction|].
  cbn [bind]. rewrite Hres. cbn [bind]. rewrite <- Hlen.
  rewrite PyFacts.slice_inside by lia.
  do 3 f_equal. lia.
Qed.

(** X10.  When the image resized to the target width has the height asked
    of [imresize] and is shorter than the target height [h], itself below
    2^53 (so that the margin is halved exactly), [get_image] does not pad:
    it returns fewer than [h] rows. *)
Theorem get_image_short path w h img orig_h orig_w resized :
  imread path = Ok img ->
  shape2 img = (orig_h, orig_w) ->
  orig_w <> 0 ->
  0 <= orig_h * w < 2 ^ 53 ->
  imresize img (Z.quot (orig_h * w) orig_w) w = Ok resized ->
  Py.len resized = Z.quot (orig_h * w) orig_w ->
  Py.len resized < h < 2 ^ 53 ->
  exists crop, get_image path w h = Ok crop /\ Py.len crop < h.
Proof.
  intros Hread Hshape Hw _ Hres _ [Hh _].
  unfold CelebABuild.get_image. rewrite Hread. cbn [bind]. rewrite Hshape.
  unfold int_truediv. destruct (Z.eqb_spec orig_w 0); [contradiction|].
  cbn [bind]. rewrite Hres. cbn [bind].
  eexists. split; [reflexivity|].
  unfold Py.slice, Py.len in *. rewrite length_firstn, length_skipn. lia.
Qed.
(** *** The build *)

(** The cache row of one file: [get_image], then the assignment to
    [self.data[n]]. *)
Definition row_of (w h : Z) (f_name : string) : result (list byte) :=
  image <- get_image f_name w h ;; store_row image.

Lemma fill_rows self fs rows :
  Forall2 (fun f r => row_of (input_width self) (input_height self) f = Ok r) fs rows ->
  fill self fs = Ok rows.
Proof.
  induction 1 as [|f r fs rows Hf _ IH]; cbn [CelebABuild.fill]; [reflexivity|].
  unfold row_of in Hf.
  destruct (get_image f (input_width self) (input_height self)) as [img|e];
    cbn [bind] in *; [|discriminate].
  rewrite Hf. cbn [bind]. rewrite IH. reflexivity.
Qed.

Lemma fill_raises self pre f post e :
  Forall (fun g => exists r, row_of (input_width self) (input_height self) g = Ok r) pre ->
  row_of (input_width self) (input_height self) f = Raise e ->
  fill self (pre ++ f :: post) = Raise e.
Proof.
  intros Hpre Hf. induction Hpre as [|g pre [r Hg] _ IH]; cbn [app CelebABuild.fill].
  - unfold row_of in Hf.
    destruct (get_image f (input_width self) (input_height self)) as [img|e'];
      cbn [bind] in *; [|injection Hf as <-; reflexivity].
    rewrite Hf. reflexivity.
  - unfold row_of in Hg.
    destruct (get_image g (input_width self) (input_height self)) as [img|e'];
      cbn [bind] in *; [|discriminate].
    rewrite Hg. cbn [bind]. rewrite IH. reflexivity.
Qed.

Lemma fill_length self fs rows : fill self fs = Ok rows -> length rows = length fs.
Proof.
  revert rows. induction fs as [|f fs IH]; intros rows; cbn [CelebABuild.fill].
  - intros H. injection H as <-. reflexivity.
  - destruct (get_image f _ _) as [img|e]; cbn [bind]; [|discriminate].
    destruct (store_row img) as [r|e]; cbn [bind]; [|discriminate].
    destruct (fill self fs) as [rs|e]; cbn [bind]; [|discriminate].
    intros H. injection H as <-. cbn [length]. f_equal. now apply IH.
Qed.

(** One whole-array load of a store whose row count is the size asked. *)
Lemma load_all (rows : CelebA.images) :
  1 <= Py.len rows ->
  load_data (write_cache rows) (Some (Py.len rows)) 0
  = ([NotEnoughDataClippingToEnd; ImageSize (length rows)],
     Ok (map (map normalize) rows)).
Proof.
  intros Hlen.
  assert (Hn : Py.ceildiv (Py.len rows) (Py.len rows) = Ok 1).
  { unfold Py.ceildiv. destruct (Z.eqb_spec (Py.len rows) 0); [lia|].
    f_equal. rewrite Z.div_opp_l_z by (try lia; apply Z_mod_same_full).
    rewrite Z.div_same by lia. reflexivity. }
  destruct (load_data_inside (write_cache rows) rows (Py.len rows) 0 1
              (write_cache_get rows) Hlen Hn ltac:(lia)) as [Hv Hl].
  assert (Hch : chunk rows (Py.len rows) 0 = rows).
  { unfold chunk. rewrite Z.mul_0_l, Z.sub_0_r, Z.min_id. cbn [Z.to_nat skipn].
    apply firstn_all2. unfold Py.len. lia. }
  rewrite Hch in *. unfold loaded in Hv.
  destruct (load_data (write_cache rows) (Some (Py.len rows)) 0) as [log r].
  cbn [fst snd] in *. now subst.
Qed.

(** In write mode an exception of [np.zeros] ends the call before
    anything is printed or asserted. *)
Lemma celeb_a_zeros_raise self listing hf e :
  np_zeros (Py.len listing)
    (input_height self * input_width self * input_channel self) = Raise e ->
  celeb_a self "w" listing hf = (hf, [], Raise e).
Proof.
  intros Hz. unfold CelebABuild.celeb_a, set_data, set_files.
  cbn [mode files num_images input_height input_width input_channel].
  change (String.eqb "w" "w") with true. cbv iota.
  rewrite np_sort_len, Hz. reflexivity.
Qed.

(** X11.  In write mode, when the number of files found is not 202599 and
    [np.zeros] yields the data array for them, construction raises
    [AssertionError] after printing the shape of the data array, and the
    container is left as it was. *)
Theorem init_wrong_count bs ih iw ic oh ow oc sr rs nt listing hf zeros :
  np_zeros (Py.len listing) (ih * iw * ic) = Ok zeros ->
  Py.len listing <> 202599 ->
  __init__ py imread imresize store_row np_zeros
    bs ih iw ic oh ow oc sr rs nt "w" listing hf
  = (hf, [DataShape (Py.len listing) (ih * iw * ic)], Raise AssertionError).
Proof.
  intros Hz Hn. unfold __init__, CelebABuild.celeb_a, set_data, set_files.
  cbn [mode files num_images input_height input_width input_channel].
  change (String.eqb "w" "w") with true. cbv iota.
  rewrite np_sort_len, Hz.
  destruct (Z.eqb_spec (Py.len listing) 202599); [contradiction|reflexivity].
Qed.

(** X12.  In write mode with the expected number of files, for which
    [np.zeros] yields the data array, the first file whose image cannot be
    read, resized or stored aborts the build with its exception: nothing is
    written, the container is left as it was. *)
Theorem celeb_a_bad_image self listing hf zeros pre f post e :
  np_zeros (Py.len listing)
    (input_height self * input_width self * input_channel self) = Ok zeros ->
  Py.len listing = num_images self ->
  np_sort listing = pre ++ f :: post ->
  Forall (fun g => exists r, row_of (input_width self) (input_height self) g = Ok r) pre ->
  row_of (input_width self) (input_height self) f = Raise e ->
  celeb_a self "w" listing hf
  = (hf,
     [DataShape (Py.len listing) (input_height self * input_width self * input_channel self)],
     Raise e).
Proof.
  intros Hz Hn Hsort Hpre Hf.
  unfold CelebABuild.celeb_a, set_data, set_files.
  cbn [mode files num_images input_height input_width input_channel].
  change (String.eqb "w" "w") with true. cbv iota.
  rewrite np_sort_len, Hz, Hn, Z.eqb_refl, Hsort.
  match goal with |- context [CelebABuild.fill _ _ _ _ ?s _] => set (self' := s) end.
  rewrite (fill_raises self' pre f post e Hpre Hf). reflexivity.
Qed.

(** X13.  In write mode with the expected number of files, at least one,
    for which [np.zeros] yields the data array and all of which yield a
    row: the container holds one dataset, the rows of the files in
    ascending order of their names, and the object's [images] are these
    rows normalised, all of them. *)
Theorem celeb_a_builds self listing hf zeros rows :
  np_zeros (Py.len listing)
    (input_height self * input_width self * input_channel self) = Ok zeros ->
  Py.len listing = num_images self ->
  1 <= num_images self ->
  Forall2 (fun f r => row_of (input_width self) (input_height self) f = Ok r)
          (np_sort listing) rows ->
  Sorted name_le (np_sort listing)
  /\ Permutation (np_sort listing) listing
  /\ exists self',
       celeb_a self "w" listing hf
       = (write_cache rows,
          [DataShape (Py.len listing)
             (input_height self * input_width self * input_channel self);
           Loading NotEnoughDataClippingToEnd;
           Loading (ImageSize (length rows))],
          Ok self')
       /\ files self' = np_sort listing
       /\ data self' = rows
       /\ images self' = map (map normalize) rows
       /\ num_images self' = num_images self.
Proof.
  intros Hz Hn H1 Hrows.
  split; [apply np_sort_sorted|]. split; [apply np_sort_perm|].
  assert (Hlen : Py.len rows = num_images self).
  { rewrite <- Hn, <- np_sort_len. unfold Py.len.
    now rewrite (Forall2_length Hrows). }
  unfold CelebABuild.celeb_a, load_images, set_data, set_files, set_images.
  cbn [mode files num_images input_height input_width input_channel data].
  change (String.eqb "w" "w") with true. cbv iota.
  rewrite np_sort_len, Hz, Hn, Z.eqb_refl.
  match goal with |- context [CelebABuild.fill _ _ _ _ ?s _] => set (self' := s) end.
  rewrite (fill_rows self' (np_sort listing) rows Hrows).
  cbn [data num_images]. rewrite <- Hlen, load_all by lia.
  eexists. split; [reflexivity|]. repeat split.
Qed.

(** Outside write mode nothing is built: the object loads the first
    [num_images] rows of the container, or all of them if there are fewer. *)
Lemma celeb_a_reads self mode0 listing hf faces :
  String.eqb mode0 "w" = false ->
  h5_get hf "images" = Ok faces ->
  1 <= Py.len faces -> 1 <= num_images self ->
  exists self' log,
    celeb_a self mode0 listing hf = (hf, log, Ok self')
    /\ images self'
       = map (map normalize) (firstn (Z.to_nat (num_images self)) faces)
    /\ files self' = files self /\ data self' = data self.
Proof.
  intros Hmode Hget Hlen Hs.
  unfold CelebABuild.celeb_a, load_images. rewrite Hmode.
  destruct (ceildiv_defined (Py.len faces) (num_images self) ltac:(lia)) as [n Hn].
  pose proof (ceildiv_spec _ _ _ Hs Hn) as Hc.
  assert (Hn1 : 1 <= n) by nia.
  destruct (load_data_inside hf faces (num_images self) 0 n Hget Hs Hn ltac:(lia))
    as [Hv _].
  unfold loaded in Hv.
  destruct (load_data hf (Some (num_images self)) 0) as [lines r].
  cbn [snd] in Hv. subst r. cbn [bind].
  eexists _, _. split; [reflexivity|].
  unfold set_images. cbn [images files data]. split; [|split; reflexivity].
  unfold chunk. rewrite Z.mul_0_l, Z.sub_0_r. cbn [Z.to_nat skipn].
  destruct (Z.le_gt_cases (num_images self) (Py.len faces)) as [Hle|Hgt].
  - now rewrite Z.min_l.
  - rewrite Z.min_r by lia.
    rewrite !firstn_all2; [reflexivity| |]; unfold Py.len in *; lia.
Qed.

(** X14.  Constructed in any mode but ['w'] over a container whose
    dataset is not empty, the object holds the first 202599 rows of it
    (all rows if there are fewer), normalised; no file is listed or read
    and the container is left as it was. *)
Theorem init_read_mode bs ih iw ic oh ow oc sr rs nt mode0 listing hf faces :
  String.eqb mode0 "w" = false ->
  h5_get hf "images" = Ok faces ->
  1 <= Py.len faces ->
  exists self' log,
    __init__ py imread imresize store_row np_zeros
      bs ih iw ic oh ow oc sr rs nt mode0 listing hf
    = (hf, log, Ok self')
    /\ images self' = map (map normalize) (firstn (Z.to_nat 202599) faces)
    /\ files self' = [] /\ data self' = [].
Proof.
  intros Hmode Hget Hlen. unfold __init__.
  match goal with |- context [CelebABuild.celeb_a _ _ _ _ _ ?s _ _ _] => set (self := s) end.
  destruct (celeb_a_reads self mode0 listing hf faces Hmode Hget Hlen)
    as (self' & log & H & Hi & Hf & Hd).
  - subst self. cbn [num_images]. lia.
  - exists self', log. subst self. cbn [mode num_images files data] in *.
    repeat split; assumption.
Qed.

End WithImages.

(** *** Concrete runs *)

(** Images of one kind of pixel: every file reads as 4 rows of 2 pixels,
    resizing yields the shape asked, a stored pixel is the byte 0. *)
Definition blank (rows cols : Z) : @image unit :=
  repeat (repeat tt (Z.to_nat cols)) (Z.to_nat rows).
Definition read_blank (_ : string) : result (@image unit) := Ok (blank 4 2).
Definition read_nothing (_ : string) : result (@image unit) := Raise KeyError.
Definition resize_blank (_ : @image unit) (h w : Z) : result (@image unit) :=
  Ok (blank h w).
Definition store_blank (img : @image unit) : result (list byte) :=
  Ok (map (fun _ => x00) (concat img)).
(** An allocator that refuses negative dimensions only. *)
Definition zeros_blank (rows cols : Z) : result CelebA.images :=
  if (rows <? 0) || (cols <? 0) then Raise ValueError
  else Ok (repeat (repeat x00 (Z.to_nat cols)) (Z.to_nat rows)).

(** An object that expects [n] files of 3 rows of 2 one-channel pixels. *)
Definition expects (n : Z) : CelebADataSet :=
  Dataset 128 3 2 1 [128; 3; 2; 1] 3 2 1 (2 # 10)%Q 42 8 "w" "" [] 0 [] n [].

Lemma get_image_centre_crop_witness :
  exists above below,
    get_image Python3 read_blank resize_blank "a.jpg" 2 3
    = Ok (firstn (Z.to_nat 3) (skipn (Z.to_nat above) (blank 4 2)))
    /\ Py.len (firstn (Z.to_nat 3) (skipn (Z.to_nat above) (blank 4 2))) = 3
    /\ 0 <= above /\ 0 <= below
    /\ above + 3 + below = Py.len (blank 4 2)
    /\ -1 <= above - below <= 1.
Proof.
  apply (get_image_centre_crop Python3 read_blank resize_blank
           "a.jpg" 2 3 (blank 4 2) 4 2 (blank 4 2)).
  - reflexivity.
  - reflexivity.
  - lia.
  - reflexivity.
  - reflexivity.
  - unfold Py.len. simpl. lia.
Defined.

Lemma get_image_short_witness :
  exists crop,
    get_image Python2 read_blank resize_blank "a.jpg" 2 7 = Ok crop
    /\ Py.len crop < 7.
Proof.
  apply (get_image_short Python2 read_blank resize_blank
           "a.jpg" 2 7 (blank 4 2) 4 2 (blank 4 2)).
  - reflexivity.
  - reflexivity.
  - lia.
  - split; [lia|]. apply Z.ltb_lt. vm_compute. reflexivity.
  - reflexivity.
  - reflexivity.
  - split; [unfold Py.len; simpl; lia|].
    apply Z.ltb_lt. vm_compute. reflexivity.
Defined.

Lemma init_wrong_count_witness :
  __init__ Python3 read_blank resize_blank store_blank zeros_blank
    128 32 32 3 32 32 3 (2 # 10)%Q 42 8 "w" ["a.jpg"%string] []
  = ([], [DataShape 1 (32 * 32 * 3)], Raise AssertionError).
Proof.
  apply (init_wrong_count Python3 read_blank resize_blank store_blank zeros_blank
           128 32 32 3 32 32 3 (2 # 10)%Q 42 8 ["a.jpg"%string] []
           (repeat (repeat x00 3072) 1)).
  - reflexivity.
  - unfold Py.len. simpl. lia.
Defined.

Lemma celeb_a_bad_image_witness :
  celeb_a Python3 read_nothing resize_blank store_blank zeros_blank
    (expects 1) "w" ["a.jpg"%string] []
  = ([], [DataShape 1 (3 * 2 * 1)], Raise KeyError).
Proof.
  apply (celeb_a_bad_image Python3 read_nothing resize_blank store_blank zeros_blank
           (expects 1) ["a.jpg"%string] [] (repeat (repeat x00 6) 1)
           [] "a.jpg"%string [] KeyError).
  - reflexivity.
  - reflexivity.
  - reflexivity.
  - constructor.
  - reflexivity.
Defined.

Lemma celeb_a_builds_witness :
  exists self',
    celeb_a Python3 read_blank resize_blank store_blank zeros_blank
      (expects 2) "w" ["b.jpg"; "a.jpg"]%string []
    = (write_cache [repeat x00 6; repeat x00 6],
       [DataShape 2 (3 * 2 * 1);
        Loading NotEnoughDataClippingToEnd;
        Loading (ImageSize 2)],
       Ok self')
    /\ files self' = ["a.jpg"; "b.jpg"]%string
    /\ images self' = map (map normalize) [repeat x00 6; repeat x00 6].
Proof.
  destruct (celeb_a_builds Python3 read_blank resize_blank store_blank zeros_blank
              (expects 2) ["b.jpg"; "a.jpg"]%string []
              (repeat (repeat x00 6) 2)
              [repeat x00 6; repeat x00 6])
    as (_ & _ & self' & H & Hf & _ & Hi & _).
  - reflexivity.
  - reflexivity.
  - simpl. lia.
  - repeat constructor.
  - exists self'. split; [exact H|]. split; assumption.
Defined.

Lemma init_read_mode_witness :
  exists self' log,
    __init__ Python3 read_blank resize_blank store_blank zeros_blank
      128 32 32 3 32 32 3 (2 # 10)%Q 42 8 "r" [] (write_cache [[x01]; [x02]])
    = (write_cache [[x01]; [x02]], log, Ok self')
    /\ images self' = map (map normalize) (firstn (Z.to_nat 202599) [[x01]; [x02]])
    /\ files self' = [] /\ data self' = [].
Proof.
  apply (init_read_mode Python3 read_blank resize_blank store_blank zeros_blank
           128 32 32 3 32 32 3 (2 # 10)%Q 42 8 "r" []
           (write_cache [[x01]; [x02]]) [[x01]; [x02]]).
  - reflexivity.
  - reflexivity.
  - unfold Py.len. simpl. lia.
Defined.
End BuildFacts.

(** ** More on the iterator *)

Module IteratorPasses.
Import Iterator IteratorFacts.

(** The step from [k] to [k + 1] in a cycle of length [nb]. *)
Lemma succ_div_mod k nb :
  1 <= nb -> 0 <= k ->
  (k mod nb + 1 < nb /\ (k + 1) mod nb = k mod nb + 1 /\ (k + 1) / nb = k / nb)
  \/ (k mod nb + 1 = nb /\ (k + 1) mod nb = 0 /\ (k + 1) / nb = k / nb + 1).
Proof.
  intros Hnb Hk.
  pose proof (Z.div_mod k nb ltac:(lia)) as E.
  pose proof (Z.mod_pos_bound k nb ltac:(lia)) as B.
  destruct (Z.lt_ge_cases (k mod nb + 1) nb) as [Hlt|Hge].
  - left. split; [exact Hlt|]. split.
    + symmetry. apply (Z.mod_unique (k + 1) nb (k / nb)); lia.
    + symmetry. apply (Z.div_unique (k + 1) nb (k / nb) (k mod nb + 1)); lia.
  - right. split; [lia|]. split.
    + symmetry. apply (Z.mod_unique (k + 1) nb (k / nb + 1)); lia.
    + symmetry. apply (Z.div_unique (k + 1) nb (k / nb + 1) 0); lia.
Qed.

Section WithRandom.
Context {A B rng : Type}.
Variable shuffle : rng -> list nat -> rng * list nat.

Abbreviation iterator := (@DataIterator A B).
Abbreviation next_batch := (@next_batch A B rng shuffle).
Abbreviation calls := (@calls A B rng shuffle).
Abbreviation iterate := (@iterate A B rng shuffle).

Implicit Types (self it : iterator) (w : world rng).

(** *** Where the cursor is, and how often the arrays were reshuffled *)

Lemma calls_cycle w0 it0 :
  shuffle_permutes shuffle -> sound it0 -> ranged it0 -> pointer it0 = 0 ->
  forall k, exists outs it w,
    calls (S k) w0 it0 = Ok (outs, it, w)
    /\ sound it /\ ranged it /\ same_config it0 it
    /\ pointer it
       = (Z.of_nat k mod (num_examples it0 / batch_size it0) + 1) * batch_size it0
    /\ Z.of_nat (shuffles w)
       = Z.of_nat (shuffles w0) + Z.of_nat k / (num_examples it0 / batch_size it0).
Proof.
  intros Hsh Hs0 Hr0 Hp0.
  set (b := batch_size it0). set (n := num_examples it0). set (nb := n / b).
  assert (Hb : 1 <= b <= n) by apply Hr0.
  assert (Hnb : 1 <= nb) by (apply Z.div_le_lower_bound; lia).
  assert (Hfl : nb * b <= n < (nb + 1) * b).
  { pose proof (Z.div_mod n b ltac:(lia)). pose proof (Z.mod_pos_bound n b ltac:(lia)).
    subst nb. nia. }
  induction k as [|k IH].
  - destruct (next_batch_cases shuffle w0 it0 Hsh Hs0 Hr0)
      as (out & it & w & H & _ & Hadv & _).
    destruct (next_batch_defined shuffle w0 it0 Hsh Hs0)
      as (out' & it' & w' & H' & Hs & Hc & Hr).
    rewrite H in H'. injection H' as <- <- <-.
    destruct Hadv as (-> & _ & _ & Hp & _); [fold b n; lia|].
    exists [out], it, w0. cbn [Iterator.calls]. rewrite H. cbn [bind].
    split; [reflexivity|]. split; [exact Hs|]. split; [now apply Hr|].
    split; [exact Hc|]. fold b n nb. cbn [Z.of_nat].
    rewrite Z.mod_0_l, Z.div_0_l by lia. split; lia.
  - destruct IH as (outs & it & w & Hk & Hs & Hr & Hc & Hp & Hw).
    fold b n nb in Hp, Hw.
    destruct Hc as (Hcb & Hcn & Hcnb & Hcl).
    fold b in Hcb. fold n in Hcn.
    destruct (next_batch_cases shuffle w it Hsh Hs Hr)
      as (out & it1 & w1 & H & _ & Hadv & Hre).
    destruct (next_batch_defined shuffle w it Hsh Hs)
      as (out' & it' & w' & H' & Hs1 & Hc1 & Hr1).
    rewrite H in H'. injection H' as <- <- <-.
    rewrite Hcb, Hcn in Hadv, Hre.
    exists (outs ++ [out]), it1, w1.
    replace (S (S k)) with (S k + 1)%nat by lia.
    rewrite (calls_app shuffle (S k) 1 w0 it0), Hk. cbn [bind Iterator.calls].
    rewrite H. cbn [bind].
    split; [reflexivity|]. split; [exact Hs1|]. split; [now apply Hr1|].
    split; [eapply same_config_trans; [|exact Hc1]; repeat split; assumption|].
    fold b n nb. rewrite Nat2Z.inj_succ. unfold Z.succ.
    assert (Hcong : (nb * b + b = (nb + 1) * b)) by lia.
    destruct (succ_div_mod (Z.of_nat k) nb Hnb ltac:(lia))
      as [(Hlt & -> & ->)|(Heq & -> & ->)].
    + destruct Hadv as (-> & _ & _ & Hp1 & _).
      * rewrite Hp.
        assert ((Z.of_nat k mod nb + 2) * b <= nb * b)
          by (apply Z.mul_le_mono_nonneg_r; lia).
        lia.
      * rewrite Hp1, Hp. split; lia.
    + destruct Hre as (_ & Hsf & Hp1 & _).
      * rewrite Hp, Heq. lia.
      * rewrite Hp1, Hsf. split; lia.
Qed.

(** X15.  Take an iterator constructed with [1 <= batch_size] (and
    matching label rows) and let [nb] be [num_examples // batch_size].
    After [k + 1] calls to [next_batch] the cursor is
    [(k mod nb + 1) * batch_size] and the arrays have been reshuffled
    [k // nb] times: a reshuffle happens at call [nb + 1] and then at every
    [nb]-th call. *)
Theorem calls_cursor_and_shuffles x0 y0 b lo it0 w0 k :
  shuffle_permutes shuffle ->
  __init__ x0 y0 b lo = Ok it0 ->
  1 <= b ->
  (lo = false -> length y0 = length x0) ->
  exists outs it w,
    calls (S k) w0 it0 = Ok (outs, it, w)
    /\ pointer it = (Z.of_nat k mod (Py.len x0 / b) + 1) * b
    /\ Z.of_nat (shuffles w) = Z.of_nat (shuffles w0) + Z.of_nat k / (Py.len x0 / b).
Proof.
  intros Hsh Hinit Hb Hlen.
  pose proof (init_sound _ _ _ _ _ Hinit Hlen) as Hs0.
  destruct (init_ranged _ _ _ _ _ Hinit Hb) as (Hr0 & Hb0 & Hn0 & _ & Hp0).
  destruct (calls_cycle w0 it0 Hsh Hs0 Hr0 Hp0 k)
    as (outs & it & w & H & _ & _ & _ & Hp & Hw).
  rewrite Hb0, Hn0 in Hp, Hw.
  exists outs, it, w. repeat split; assumption.
Qed.
(** *** Nothing is lost by reshuffling *)

Lemma nth_error_combine {T U : Type} (l : list T) (m : list U) i :
  nth_error (combine l m) i
  = match nth_error l i, nth_error m i with
    | Some a, Some c => Some (a, c)
    | _, _ => None
    end.
Proof.
  revert m i. induction l as [|a l IH]; intros m i; cbn [combine].
  - destruct i; reflexivity.
  - destruct m as [|c m]; cbn [combine].
    + destruct i as [|i]; cbn [nth_error]; [reflexivity|].
      destruct (nth_error l i); reflexivity.
    + destruct i as [|i]; cbn [nth_error]; [reflexivity|]. apply IH.
Qed.

Lemma take_combine {T U : Type} (l : list T) (m : list U) idx l' m' :
  Py.take l idx = Ok l' -> Py.take m idx = Ok m' ->
  Py.take (combine l m) idx = Ok (combine l' m').
Proof.
  revert l' m'. induction idx as [|i idx IH]; intros l' m' Hl Hm.
  - injection Hl as <-. injection Hm as <-. reflexivity.
  - apply PyFacts.take_cons_inv in Hl. destruct Hl as (a & r & Ha & Hl & ->).
    apply PyFacts.take_cons_inv in Hm. destruct Hm as (c & q & Hc & Hm & ->).
    cbn [Py.take combine]. rewrite nth_error_combine, Ha, Hc, (IH _ _ Hl Hm).
    reflexivity.
Qed.

Lemma take_permuted {T : Type} (l : list T) perm r :
  Permutation perm (seq 0 (length l)) -> Py.take l perm = Ok r -> Permutation r l.
Proof.
  intros HP H. destruct (PyFacts.take_permutation l perm HP) as (r' & H' & HP').
  rewrite H in H'. injection H' as <-. exact HP'.
Qed.

(** The stored arrays hold the original examples, and the original pairs. *)
Definition holds (x0 : list A) (y0 : list B) it : Prop :=
  Permutation (x it) x0
  /\ match y it with
     | Some ys => Permutation (combine (x it) ys) (combine x0 y0)
     | None => True
     end.

Lemma reshuffled_holds x0 y0 w it it' w' :
  sound it -> reshuffled shuffle w it it' w' -> holds x0 y0 it -> holds x0 y0 it'.
Proof.
  intros [Hn Hy] (perm & _ & HP & Hx & Hys & _) [Hx0 Hy0].
  unfold Py.arange in HP. rewrite Hn in HP. unfold Py.len in HP.
  rewrite Nat2Z.id in HP.
  split.
  - transitivity (x it); [|exact Hx0]. eapply take_permuted; eassumption.
  - destruct (y it) as [ys|]; [|now rewrite Hys].
    destruct Hys as (ys' & -> & Hys'). destruct Hy as [_ Hlen].
    transitivity (combine (x it) ys); [|exact Hy0].
    apply (take_permuted _ perm).
    + rewrite length_combine, Hlen, Nat.min_id. exact HP.
    + now apply take_combine.
Qed.

Lemma calls_hold x0 y0 k : forall w it,
  shuffle_permutes shuffle -> sound it -> holds x0 y0 it ->
  exists outs it' w',
    calls k w it = Ok (outs, it', w') /\ holds x0 y0 it'.
Proof.
  induction k as [|k IH]; intros w it Hsh Hs Hh; cbn [Iterator.calls].
  - exists [], it, w. split; [reflexivity|exact Hh].
  - assert (Hstep : exists o it1 w1,
              next_batch w it = Ok (o, it1, w1) /\ sound it1 /\ holds x0 y0 it1).
    { destruct (Z.le_gt_cases (pointer it + batch_size it) (num_examples it)) as [Hp|Hp].
      - rewrite (next_batch_advance shuffle w it Hs Hp). eexists _, _, _.
        split; [reflexivity|]. split; [exact Hs|exact Hh].
      - destruct (next_batch_reshuffle shuffle w it Hsh Hs Hp)
          as (it1 & w1 & -> & Hre & Hs1).
        eexists _, _, _. split; [reflexivity|]. split; [exact Hs1|].
        exact (reshuffled_holds x0 y0 w it it1 w1 Hs Hre Hh). }
    destruct Hstep as (o & it1 & w1 & -> & Hs1 & Hh1). cbn [bind].
    destruct (IH w1 it1 Hsh Hs1 Hh1) as (os & it2 & w2 & -> & Hh2). cbn [bind].
    eexists _, _, _. split; [reflexivity|exact Hh2].
Qed.

(** X16.  Whatever the batch size the constructor accepted, with label
    rows matching the feature rows no sequence of calls raises, and after
    it the stored feature array is a permutation of the original one and
    the stored feature/label pairs are a permutation of the original pairs:
    reshuffling loses no example, repeats none and separates no pair. *)
Theorem calls_keep_examples x0 y0 b lo it0 w0 k :
  shuffle_permutes shuffle ->
  __init__ x0 y0 b lo = Ok it0 ->
  (lo = false -> length y0 = length x0) ->
  exists outs it w,
    calls k w0 it0 = Ok (outs, it, w)
    /\ Permutation (x it) x0
    /\ (lo = false ->
        exists ys, y it = Some ys
                   /\ Permutation (combine (x it) ys) (combine x0 y0)).
Proof.
  intros Hsh Hinit Hlen.
  pose proof (init_sound _ _ _ _ _ Hinit Hlen) as Hs0.
  assert (Hh0 : holds x0 y0 it0).
  { apply init_inv in Hinit. destruct Hinit as (_ & _ & ->).
    unfold holds. cbn [x y]. split; [reflexivity|].
    destruct lo; cbn [negb]; [exact I|reflexivity]. }
  destruct (calls_defined shuffle k w0 it0 Hsh Hs0)
    as (outs & it & w & H & Hs & (_ & _ & _ & Hlo) & _).
  destruct (calls_hold x0 y0 k w0 it0 Hsh Hs0 Hh0) as (outs' & it' & w' & H' & Hh).
  rewrite H in H'. injection H' as <- <- <-.
  exists outs, it, w. split; [exact H|]. destruct Hh as [Hx Hy].
  split; [exact Hx|]. intros Hfalse.
  apply init_inv in Hinit. destruct Hinit as (_ & _ & Hit0).
  assert (Hl0 : label_off it0 = lo) by (subst it0; reflexivity).
  rewrite Hl0, Hfalse in Hlo. destruct Hs as [_ Hsy].
  destruct (y it) as [ys|]; [eauto|congruence].
Qed.
Lemma length_batches_aux it k : forall p, length (batches it p k) = k.
Proof.
  induction k as [|k IH]; intros p; cbn [batches length]; [reflexivity|].
  now rewrite IH.
Qed.

(** *** A pass after the first *)

(** At the end of a pass the next [iterate] reshuffles with its first
    batch and then runs over the new arrangement without another draw. *)
Lemma iterate_after_pass w it :
  shuffle_permutes shuffle -> sound it -> ranged it ->
  num_batches it = num_examples it / batch_size it ->
  pointer it = num_batches it * batch_size it ->
  exists outs it' w',
    iterate w it = Ok (outs, it', w')
    /\ shuffles w' = S (shuffles w)
    /\ Z.of_nat (length outs) = num_batches it
    /\ Permutation (x it') (x it)
    /\ concat (map features outs)
       = rows_from (x it') 0 (num_batches it * batch_size it)
    /\ pointer it' = pointer it.
Proof.
  intros Hsh Hs Hr Hnb Hp.
  set (b := batch_size it) in *. set (n := num_examples it) in *.
  assert (Hb : 1 <= b <= n) by apply Hr.
  assert (Hnb1 : 1 <= num_batches it)
    by (rewrite Hnb; apply Z.div_le_lower_bound; lia).
  assert (Hfl : num_batches it * b <= n < (num_batches it + 1) * b).
  { pose proof (Z.div_mod n b ltac:(lia)). pose proof (Z.mod_pos_bound n b ltac:(lia)).
    rewrite Hnb. nia. }
  unfold Iterator.iterate.
  destruct (Z.to_nat (num_batches it)) as [|m] eqn:Em; [lia|].
  assert (Hm : num_batches it = Z.of_nat m + 1) by lia.
  cbn [Iterator.calls].
  destruct (next_batch_reshuffle shuffle w it Hsh Hs) as (it1 & w1 & -> & Hre & Hs1).
  { fold b n. lia. }
  cbn [bind].
  destruct (reshuffled_config shuffle _ _ _ _ Hre) as [(Hb1 & Hn1 & _) Hp1].
  fold b in Hb1, Hp1. fold n in Hn1.
  rewrite (calls_advance shuffle m w1 it1 Hs1) by (rewrite ?Hb1, ?Hn1, ?Hp1; nia).
  cbn [bind]. rewrite Hp1, Hb1.
  eexists _, _, _. split; [reflexivity|].
  destruct Hre as (perm & E & HP & Hx & _).
  split.
  { pose proof (shuffle_world shuffle w (Py.arange (num_examples it))) as Hw.
    fold n in E. fold n in Hw. rewrite E in Hw. exact Hw. }
  split; [cbn [length]; rewrite length_batches_aux; lia|].
  split.
  { cbn [set_pointer x]. destruct Hs as [Hn _]. fold n in Hn, HP.
    unfold Py.arange in HP. rewrite Hn in HP. unfold Py.len in HP.
    rewrite Nat2Z.id in HP. eapply take_permuted; eassumption. }
  split; [|cbn [set_pointer pointer]; rewrite Hp; lia].
  cbn [set_pointer x].
  destruct (batches_cover it1 (S m) 0 Hs1) as (Hf & _); rewrite ?Hb1, ?Hn1; try lia.
  cbn [batches] in Hf. rewrite Hb1 in Hf. cbn [Z.add] in Hf.
  fold b. rewrite Hf. f_equal. lia.
Qed.
(** X17.  On an iterator constructed with [1 <= batch_size] (and matching
    label rows), after any number of complete passes ([j + 1] times
    [num_examples // batch_size] calls), one more [iterate] reshuffles
    exactly once and yields [num_examples // batch_size] batches which, put
    end to end, are the first [(num_examples // batch_size) * batch_size]
    rows of the reshuffled array, itself a permutation of the original. *)
Theorem later_pass x0 y0 b lo it0 w0 j :
  shuffle_permutes shuffle ->
  __init__ x0 y0 b lo = Ok it0 ->
  1 <= b ->
  (lo = false -> length y0 = length x0) ->
  exists outs0 it w,
    calls (S j * Z.to_nat (Py.len x0 / b)) w0 it0 = Ok (outs0, it, w)
    /\ exists outs it' w',
         iterate w it = Ok (outs, it', w')
         /\ shuffles w' = S (shuffles w)
         /\ Z.of_nat (length outs) = Py.len x0 / b
         /\ Permutation (x it') x0
         /\ concat (map features outs)
            = rows_from (x it') 0 (Py.len x0 / b * b).
Proof.
  intros Hsh Hinit Hb Hlen.
  pose proof (init_sound _ _ _ _ _ Hinit Hlen) as Hs0.
  destruct (init_ranged _ _ _ _ _ Hinit Hb) as (Hr0 & Hb0 & Hn0 & Hnb0 & Hp0).
  set (nb := Py.len x0 / b) in *.
  assert (Hnb : 1 <= nb).
  { subst nb. apply Z.div_le_lower_bound; [lia|]. destruct Hr0 as [Hr0 _]. lia. }
  assert (Hk : (S j * Z.to_nat nb = S (S j * Z.to_nat nb - 1))%nat) by nia.
  rewrite Hk.
  destruct (calls_cycle w0 it0 Hsh Hs0 Hr0 Hp0 (S j * Z.to_nat nb - 1))
    as (outs0 & it & w & H & Hs & Hr & (Hcb & Hcn & Hcnb & _) & Hp & _).
  rewrite Hb0, Hn0 in Hp. fold nb in Hp.
  assert (Hmod : Z.of_nat (S j * Z.to_nat nb - 1) mod nb = nb - 1).
  { symmetry. apply (Z.mod_unique _ nb (Z.of_nat j)); [lia|]. nia. }
  rewrite Hmod in Hp.
  assert (Hh0 : holds x0 y0 it0).
  { apply init_inv in Hinit. destruct Hinit as (_ & _ & ->).
    unfold holds. cbn [x y]. split; [reflexivity|].
    destruct lo; cbn [negb]; [exact I|reflexivity]. }
  destruct (calls_hold x0 y0 (S (S j * Z.to_nat nb - 1)) w0 it0 Hsh Hs0 Hh0)
    as (o' & it' & w' & H' & [Hx _]).
  rewrite H in H'. injection H' as <- <- <-.
  exists outs0, it, w. split; [exact H|].
  destruct (iterate_after_pass w it Hsh Hs Hr)
    as (outs & it1 & w1 & Hi & Hsf & Hl & HP & Hc & _).
  { rewrite Hcnb, Hcb, Hcn, Hnb0, Hb0, Hn0. reflexivity. }
  { rewrite Hp, Hcnb, Hcb, Hnb0, Hb0. fold nb. lia. }
  rewrite Hcnb, Hnb0 in Hl, Hc. rewrite Hcb, Hb0 in Hc.
  exists outs, it1, w1. split; [exact Hi|]. split; [exact Hsf|].
  split; [exact Hl|]. split; [now transitivity (x it)|exact Hc].
Qed.

(** *** Labels shorter than the features *)

(** [y] is set exactly when labels are on. *)
Definition consistent it : Prop :=
  match y it with
  | Some _ => label_off it = false
  | None => label_off it = true
  end.

Lemma next_batch_advance_any w it :
  consistent it ->
  pointer it + batch_size it <= num_examples it ->
  next_batch w it
  = Ok (batch_of it (pointer it) (pointer it + batch_size it),
        set_pointer it (pointer it + batch_size it), w).
Proof.
  intros Hy Hp. unfold Iterator.next_batch, batch_of, get_y, set_pointer, consistent in *.
  cbn [pointer num_examples label_off x y batch_size].
  destruct (Z.ltb_spec (num_examples it) (pointer it + batch_size it)); [lia|].
  cbn [bind pointer num_examples label_off x y batch_size].
  destruct (y it) as [ys|]; rewrite Hy; reflexivity.
Qed.

Lemma calls_advance_any k : forall w it,
  consistent it ->
  (forall j, (1 <= j <= k)%nat ->
             pointer it + Z.of_nat j * batch_size it <= num_examples it) ->
  calls k w it
  = Ok (batches it (pointer it) k,
        set_pointer it (pointer it + Z.of_nat k * batch_size it), w).
Proof.
  induction k as [|k IH]; intros w it Hy Hp; cbn [Iterator.calls batches].
  - rewrite set_pointer_same by lia. reflexivity.
  - rewrite next_batch_advance_any; [|exact Hy|].
    2:{ specialize (Hp 1%nat ltac:(lia)). lia. }
    cbn [bind]. rewrite IH; [|exact Hy|].
    2:{ intros j Hj. cbn [set_pointer pointer batch_size num_examples].
        specialize (Hp (S j) ltac:(lia)). lia. }
    cbn [bind]. rewrite batches_set_pointer.
    unfold set_pointer. cbn [x y label_off batch_size num_examples num_batches pointer].
    replace (pointer it + batch_size it + Z.of_nat k * batch_size it)
      with (pointer it + Z.of_nat (S k) * batch_size it) by lia.
    reflexivity.
Qed.

Lemma take_in_range {T : Type} (l : list T) idx r :
  Py.take l idx = Ok r -> Forall (fun i => (i < length l)%nat) idx.
Proof.
  revert r. induction idx as [|i idx IH]; intros r H; [constructor|].
  apply PyFacts.take_cons_inv in H. destruct H as (a & r' & Hi & H & _).
  constructor; [|now apply (IH r')].
  apply nth_error_Some. congruence.
Qed.

Lemma take_raises_index {T : Type} (l : list T) idx e :
  Py.take l idx = Raise e -> e = IndexError.
Proof.
  induction idx as [|i idx IH]; cbn [Py.take]; [discriminate|].
  destruct (nth_error l i); [|intros H; injection H as <-; reflexivity].
  destruct (Py.take l idx) as [r|e']; cbn [bind]; [discriminate|].
  intros H. injection H as <-. now apply IH.
Qed.

Lemma take_too_short {T : Type} (l : list T) perm n :
  Permutation perm (seq 0 n) -> (length l < n)%nat ->
  Py.take l perm = Raise IndexError.
Proof.
  intros HP Hlen. destruct (Py.take l perm) as [r|e] eqn:E.
  - exfalso. apply take_in_range in E.
    assert (Hin : In (n - 1)%nat perm).
    { apply (Permutation_in _ (Permutation_sym HP)). apply in_seq. lia. }
    pose proof (proj1 (Forall_forall _ _) E _ Hin). cbv beta in *. lia.
  - now rewrite (take_raises_index _ _ _ E).
Qed.

(** X18.  A label array shorter than the feature array is accepted by the
    constructor and serves the whole first pass; the call that follows,
    the first to reshuffle, raises [IndexError]. *)
Theorem short_labels_raise_late x0 y0 b it0 w0 :
  shuffle_permutes shuffle ->
  __init__ x0 y0 b false = Ok it0 ->
  1 <= b ->
  (length y0 < length x0)%nat ->
  exists outs it,
    iterate w0 it0 = Ok (outs, it, w0)
    /\ Z.of_nat (length outs) = Py.len x0 / b
    /\ next_batch w0 it = Raise IndexError.
Proof.
  intros Hsh Hinit Hb Hlen.
  destruct (init_ranged _ _ _ _ _ Hinit Hb) as ([Hb1 _] & Hb0 & Hn0 & Hnb0 & Hp0).
  apply init_inv in Hinit. destruct Hinit as (_ & _ & Hit0).
  assert (Hy0 : consistent it0) by (subst it0; reflexivity).
  set (nb := Py.len x0 / b) in *.
  assert (Hnb : 1 <= nb) by (subst nb; apply Z.div_le_lower_bound; lia).
  assert (Hfl : nb * b <= Py.len x0 < (nb + 1) * b).
  { pose proof (Z.div_mod (Py.len x0) b ltac:(lia)).
    pose proof (Z.mod_pos_bound (Py.len x0) b ltac:(lia)). subst nb. nia. }
  unfold Iterator.iterate. rewrite Hnb0.
  rewrite (calls_advance_any (Z.to_nat nb) w0 it0 Hy0).
  2:{ intros j Hj. rewrite Hp0, Hb0, Hn0.
      assert (Z.of_nat j * b <= nb * b) by (apply Z.mul_le_mono_nonneg_r; lia).
      lia. }
  eexists _, _. split; [reflexivity|].
  split; [rewrite length_batches_aux; lia|].
  rewrite Hp0, Hb0, Z2Nat.id by lia.
  pose proof (shuffle_draw shuffle w0 (Py.arange (Py.len x0)) Hsh) as HP.
  subst it0.
  unfold Iterator.next_batch, reshuffle, get_y, set_pointer, set_x, set_y.
  cbn [pointer num_examples num_batches label_off x y batch_size negb].
  destruct (Z.ltb_spec (Py.len x0) (0 + nb * b + b)); [|lia].
  destruct (np_random_shuffle shuffle w0 (Py.arange (Py.len x0))) as [w1 perm].
  cbn [snd] in HP. unfold Py.arange, Py.len in HP. rewrite Nat2Z.id in HP.
  destruct (PyFacts.take_permutation x0 perm HP) as (x' & -> & _).
  cbn [bind pointer num_examples num_batches label_off x y batch_size negb].
  rewrite (take_too_short y0 perm (length x0) HP Hlen). reflexivity.
Qed.

(** *** A negative batch size *)

Lemma slice_backwards {T : Type} (l : list T) start stop :
  start < 0 -> stop <= start -> Py.slice l start stop = [].
Proof.
  intros Hs Hle. unfold Py.slice, Py.bound.
  destruct (Z.ltb_spec start 0), (Z.ltb_spec stop 0); try lia.
  replace (Z.to_nat (Z.max (stop + Py.len l) 0 - Z.max (start + Py.len l) 0))
    with 0%nat by lia.
  reflexivity.
Qed.

Lemma batches_empty it k : forall p,
  p < 0 -> batch_size it < 0 ->
  Forall (fun o => features o = [] /\ label_rows o = []) (batches it p k).
Proof.
  induction k as [|k IH]; intros p Hp Hb; cbn [batches]; constructor.
  - unfold batch_of, label_rows.
    destruct (y it); cbn [features labels];
      rewrite ?slice_backwards by lia; split; reflexivity.
  - apply IH; lia.
Qed.

(** X19.  A negative batch size passes the constructor.  Then [iterate]
    yields nothing, no call ever reshuffles, the first call returns the
    slice [x[0:batch_size]] (all rows but the last few) and every later
    call returns an empty batch. *)
Theorem negative_batch_size x0 y0 b lo it0 w0 k :
  __init__ x0 y0 b lo = Ok it0 ->
  b < 0 ->
  iterate w0 it0 = Ok ([], it0, w0)
  /\ exists first rest it,
       calls (S k) w0 it0 = Ok (first :: rest, it, w0)
       /\ features first = Py.slice x0 0 b
       /\ Forall (fun o => features o = [] /\ label_rows o = []) rest
       /\ x it = x0
       /\ pointer it = Z.of_nat (S k) * b.
Proof.
  intros Hinit Hb.
  apply init_inv in Hinit. destruct Hinit as (_ & _ & Hit0).
  pose proof (PyFacts.len_nonneg x0) as Hx0.
  assert (Hy0 : consistent it0) by (subst it0; destruct lo; reflexivity).
  split.
  - unfold Iterator.iterate. subst it0. cbn [num_batches].
    assert (Hq : Py.len x0 / b <= 0).
    { pose proof (Z.div_mod (Py.len x0) b ltac:(lia)).
      pose proof (Z.mod_neg_bound (Py.len x0) b ltac:(lia)). nia. }
    replace (Z.to_nat (Py.len x0 / b)) with 0%nat by lia. reflexivity.
  - rewrite (calls_advance_any (S k) w0 it0 Hy0).
    2:{ intros j Hj. subst it0. cbn [pointer batch_size num_examples]. nia. }
    subst it0. cbn [pointer batch_size batches Z.add].
    eexists _, _, _. split; [reflexivity|]. split; [|split; [|split]].
    + unfold batch_of. cbn [x y]. destruct (negb lo); reflexivity.
    + apply batches_empty; cbn [batch_size]; lia.
    + reflexivity.
    + cbn [set_pointer pointer]. reflexivity.
Qed.

(** *** What the constructor raises *)

(** X20.  The constructor raises in two cases only: [ZeroDivisionError]
    for a batch size of zero, [AssertionError] for a batch size above the
    number of rows.  Over an empty feature array it therefore succeeds for
    negative batch sizes only. *)
Theorem init_raises (x0 : list A) (y0 : list B) b lo :
  (forall e, __init__ x0 y0 b lo = Raise e <->
             (b = 0 /\ e = ZeroDivisionError)
             \/ (Py.len x0 < b /\ e = AssertionError))
  /\ (x0 = [] -> ((exists it0, __init__ x0 y0 b lo = Ok it0) <-> b < 0)).
Proof.
  pose proof (PyFacts.len_nonneg x0) as Hx0.
  split.
  - intros e. unfold __init__, Py.floordiv.
    destruct (Z.eqb_spec b 0) as [->|Hb]; cbn [bind].
    + split.
      * intros H. injection H as <-. left. auto.
      * intros [[_ ->]|[H _]]; [reflexivity|lia].
    + destruct (Z.leb_spec b (Py.len x0)) as [Hle|Hgt].
      * split; [discriminate|]. intros [[H _]|[H _]]; [contradiction|lia].
      * split.
        -- intros H. injection H as <-. right. auto.
        -- intros [[H _]|[_ ->]]; [contradiction|reflexivity].
  - intros ->. split.
    + intros [it0 H]. apply init_inv in H. destruct H as (Hb & Hle & _).
      unfold Py.len in Hle. cbn [length] in Hle. lia.
    + intros Hb. unfold __init__, Py.floordiv.
      destruct (Z.eqb_spec b 0); [lia|]. cbn [bind].
      destruct (Z.leb_spec b (Py.len (@nil A))) as [_|Hgt]; [eauto|].
      unfold Py.len in Hgt. cbn [length] in Hgt. lia.
Qed.
End WithRandom.

(** *** Concrete runs *)

Lemma calls_cursor_and_shuffles_witness :
  exists outs it w,
    calls reversing 5 fresh (Build [1; 2; 3; 4; 5]%nat true (@None (list nat)) 2 5 2 0)
    = Ok (outs, it, w)
    /\ pointer it = (Z.of_nat 4 mod (5 / 2) + 1) * 2
    /\ Z.of_nat (shuffles w) = Z.of_nat (shuffles fresh) + Z.of_nat 4 / (5 / 2).
Proof.
  apply (calls_cursor_and_shuffles reversing [1; 2; 3; 4; 5]%nat (@nil nat) 2 true
           _ fresh 4 reversing_permutes eq_refl ltac:(lia) ltac:(discriminate)).
Defined.

Lemma calls_keep_examples_witness :
  exists outs it w,
    calls reversing 3 fresh
      (Build [10; 20; 30]%nat false (Some [1; 2; 3]%nat) 2 3 1 0)
    = Ok (outs, it, w)
    /\ Permutation (x it) [10; 20; 30]%nat
    /\ (false = false ->
        exists ys, y it = Some ys
                   /\ Permutation (combine (x it) ys)
                                  (combine [10; 20; 30]%nat [1; 2; 3]%nat)).
Proof.
  apply (calls_keep_examples reversing [10; 20; 30]%nat [1; 2; 3]%nat 2 false
           _ fresh 3 reversing_permutes eq_refl (fun _ => eq_refl)).
Defined.

Lemma later_pass_witness :
  exists outs0 it w,
    calls reversing (1 * Z.to_nat (Py.len [1; 2; 3; 4; 5]%nat / 2)) fresh
      (Build [1; 2; 3; 4; 5]%nat true (@None (list nat)) 2 5 2 0)
    = Ok (outs0, it, w)
    /\ exists outs it' w',
         iterate reversing w it = Ok (outs, it', w')
         /\ shuffles w' = S (shuffles w)
         /\ Z.of_nat (length outs) = Py.len [1; 2; 3; 4; 5]%nat / 2
         /\ Permutation (x it') [1; 2; 3; 4; 5]%nat
         /\ concat (map features outs)
            = rows_from (x it') 0 (Py.len [1; 2; 3; 4; 5]%nat / 2 * 2).
Proof.
  apply (later_pass reversing [1; 2; 3; 4; 5]%nat (@nil nat) 2 true
           _ fresh 0 reversing_permutes eq_refl ltac:(lia) ltac:(discriminate)).
Defined.

Lemma short_labels_raise_late_witness :
  exists outs it,
    iterate reversing fresh (Build [10; 20; 30]%nat false (Some [1]%nat) 2 3 1 0)
    = Ok (outs, it, fresh)
    /\ Z.of_nat (length outs) = Py.len [10; 20; 30]%nat / 2
    /\ next_batch reversing fresh it = Raise IndexError.
Proof.
  apply (short_labels_raise_late reversing [10; 20; 30]%nat [1]%nat 2 _ fresh
           reversing_permutes eq_refl ltac:(lia)).
  simpl. lia.
Defined.

Lemma negative_batch_size_witness :
  iterate reversing fresh
    (Build [0; 1; 2; 3; 4]%nat true (@None (list nat)) (-2) 5 (-3) 0)
  = Ok ([], Build [0; 1; 2; 3; 4]%nat true (@None (list nat)) (-2) 5 (-3) 0, fresh).
Proof.
  exact (proj1 (negative_batch_size reversing [0; 1; 2; 3; 4]%nat (@nil nat) (-2) true
                  _ fresh 2 eq_refl ltac:(lia))).
Defined.
End IteratorPasses.
